(** * merkderwn: the SXMD scanner of [main.go], embedded and verified

    The Go program converts a document mixing Markdown, LaTeX, HTML comments
    and CDATA sections: LaTeX constructs are wrapped into HTML comments, CDATA
    sections are dropped, everything else is copied.

    The embedding follows [main.go] function by function.  The [Converter]
    struct is a record; methods take the record and return the updated one.
    A Go run-time panic (index or slice bounds out of range) is the [Panic]
    outcome of the [result] type; loops are fixpoints over a loop bound,
    whose exhaustion is the separate outcome [OutOfFuel], proved unreachable
    for the bounds the model uses. *)

From Stdlib Require Import String Ascii.
From Stdlib Require Import ZArith List Bool Lia.
Import ListNotations.
Open Scope Z_scope.

(** ** Outcomes of a Go computation *)

Inductive result (A : Type) : Type :=
| Ok (a : A)
| Panic
| OutOfFuel.

Arguments Ok {A} a.
Arguments Panic {A}.
Arguments OutOfFuel {A}.

Definition bind {A B : Type} (m : result A) (k : A -> result B) : result B :=
  match m with
  | Ok a => k a
  | Panic => Panic
  | OutOfFuel => OutOfFuel
  end.

Notation "x <- m ;; k" := (bind m (fun x => k))
  (at level 61, m at next level, right associativity).

(** Go's [&&] and [||] evaluate their right operand only when the left one
    does not decide: a panic of the right operand is not raised then. *)
Definition andR (a b : result bool) : result bool :=
  x <- a ;; if x then b else Ok false.

Definition orR (a b : result bool) : result bool :=
  x <- a ;; if x then Ok true else b.

(** ** Runes, bytes and UTF-8 *)

(** A [rune] is Go's [int32], a [byte] is [uint8]; both are kept as [Z]. *)
Definition rune := Z.
Definition byte := Z.

Definition rune_of (a : ascii) : rune := Z.of_N (N_of_ascii a).
Arguments rune_of a%_char.

(** [[]rune("...")] for the ASCII literals of the program. *)
Definition runes (s : string) : list rune := map rune_of (list_ascii_of_string s).
Arguments runes s%_string.

Definition RuneError : rune := 0xFFFD.

(** [utf8.EncodeRune], which both [Buffer.WriteRune] and the conversion
    [string([]rune)] apply to every rune. *)
Definition encodeRune (r : rune) : list byte :=
  if (0 <=? r) && (r <=? 0x7F) then [r]
  else if (0 <=? r) && (r <=? 0x7FF) then
    [Z.lor 0xC0 (Z.shiftr r 6); Z.lor 0x80 (Z.land r 0x3F)]
  else
    let r := if (r <? 0) || (0x10FFFF <? r) || ((0xD800 <=? r) && (r <=? 0xDFFF))
             then RuneError else r in
    if r <=? 0xFFFF then
      [Z.lor 0xE0 (Z.shiftr r 12);
       Z.lor 0x80 (Z.land (Z.shiftr r 6) 0x3F);
       Z.lor 0x80 (Z.land r 0x3F)]
    else
      [Z.lor 0xF0 (Z.shiftr r 18);
       Z.lor 0x80 (Z.land (Z.shiftr r 12) 0x3F);
       Z.lor 0x80 (Z.land (Z.shiftr r 6) 0x3F);
       Z.lor 0x80 (Z.land r 0x3F)].

Definition encode (s : list rune) : list byte := flat_map encodeRune s.

(** [utf8.DecodeRune]: the rune at the head of [p] and its width in bytes;
    an invalid or truncated sequence yields [RuneError] of width 1. *)
Definition DecodeRune (p : list byte) : rune * nat :=
  match p with
  | [] => (RuneError, 0%nat)
  | p0 :: t =>
    if p0 <? 0x80 then (p0, 1%nat)
    else if (p0 <? 0xC2) || (0xF4 <? p0) then (RuneError, 1%nat)
    else
      let lo := if p0 =? 0xE0 then 0xA0 else if p0 =? 0xF0 then 0x90 else 0x80 in
      let hi := if p0 =? 0xED then 0x9F else if p0 =? 0xF4 then 0x8F else 0xBF in
      let cont b := (0x80 <=? b) && (b <=? 0xBF) in
      match t with
      | [] => (RuneError, 1%nat)
      | b1 :: t1 =>
        if p0 <? 0xE0 then
          if (b1 <? lo) || (hi <? b1) then (RuneError, 1%nat)
          else (Z.lor (Z.shiftl (Z.land p0 0x1F) 6) (Z.land b1 0x3F), 2%nat)
        else
          match t1 with
          | [] => (RuneError, 1%nat)
          | b2 :: t2 =>
            if p0 <? 0xF0 then
              if (b1 <? lo) || (hi <? b1) || negb (cont b2) then (RuneError, 1%nat)
              else (Z.lor (Z.shiftl (Z.land p0 0x0F) 12)
                     (Z.lor (Z.shiftl (Z.land b1 0x3F) 6) (Z.land b2 0x3F)), 3%nat)
            else
              match t2 with
              | [] => (RuneError, 1%nat)
              | b3 :: _ =>
                if (b1 <? lo) || (hi <? b1) || negb (cont b2) || negb (cont b3)
                then (RuneError, 1%nat)
                else (Z.lor (Z.shiftl (Z.land p0 0x07) 18)
                       (Z.lor (Z.shiftl (Z.land b1 0x3F) 12)
                         (Z.lor (Z.shiftl (Z.land b2 0x3F) 6) (Z.land b3 0x3F))), 4%nat)
              end
          end
      end
  end.

(** [bytes.Runes]: decode until the byte slice is empty.  Every round drops
    at least one byte, so the length of the input bounds the rounds. *)
Fixpoint Runes_loop (fuel : nat) (s : list byte) : list rune :=
  match s, fuel with
  | [], _ => []
  | _, O => []
  | _, S fuel' =>
    let (r, l) := DecodeRune s in r :: Runes_loop fuel' (skipn l s)
  end.

Definition Runes (s : list byte) : list rune := Runes_loop (length s) s.

(** [unicode.IsSpace]: the Latin-1 cases, then the White_Space table. *)
Definition IsSpace (r : rune) : bool :=
  if (0 <=? r) && (r <=? 0xFF) then
    ((0x09 <=? r) && (r <=? 0x0D)) || (r =? 0x20) || (r =? 0x85) || (r =? 0xA0)
  else
    (r =? 0x1680) || ((0x2000 <=? r) && (r <=? 0x200A)) ||
    ((0x2028 <=? r) && (r <=? 0x2029)) || (r =? 0x202F) ||
    (r =? 0x205F) || (r =? 0x3000).

(** ** The converter *)

Record Converter : Type := mkConverter {
  inputLength : Z;
  cursor : Z;
  inInlineMath : bool;
  in_ : list rune;
  out : list byte
}.

(** Field updates. *)
Definition advance (n : Z) (c : Converter) : Converter :=
  mkConverter (inputLength c) (cursor c + n) (inInlineMath c) (in_ c) (out c).

Definition setInInlineMath (b : bool) (c : Converter) : Converter :=
  mkConverter (inputLength c) (cursor c) b (in_ c) (out c).

Definition len (s : list rune) : Z := Z.of_nat (length s).

(** [s[i]]: panics unless [0 <= i < len(s)]. *)
Definition index (s : list rune) (i : Z) : result rune :=
  if (0 <=? i) && (i <? len s) then
    match nth_error s (Z.to_nat i) with
    | Some r => Ok r
    | None => Panic
    end
  else Panic.

(** [s[lo:hi]]: panics unless [0 <= lo <= hi <= cap(s)].  The input slice
    comes from [bytes.Runes], which allocates exactly as many runes as it
    decodes: its capacity is its length. *)
Definition slice (s : list rune) (lo hi : Z) : result (list rune) :=
  if (0 <=? lo) && (lo <=? hi) && (hi <=? len s) then
    Ok (firstn (Z.to_nat (hi - lo)) (skipn (Z.to_nat lo) s))
  else Panic.

(** *** Methods that operate on the input *)

Definition atEof (c : Converter) : bool := cursor c >=? inputLength c.

Definition at_ (c : Converter) (i : Z) : result rune := index (in_ c) i.

Definition current (c : Converter) : result rune := index (in_ c) (cursor c).

Definition next (c : Converter) : result rune := index (in_ c) (cursor c + 1).

Definition prev (c : Converter) : result rune := index (in_ c) (cursor c - 1).

Definition lookahead (n : Z) (c : Converter) : result (list rune) :=
  slice (in_ c) (cursor c + 1) (cursor c + 1 + n).

Definition lookaheadAt (n : Z) (i : Z) (c : Converter) : result (list rune) :=
  slice (in_ c) (i + 1) (i + 1 + n).


(** *** Methods that operate on the output *)

Definition emit (s : list rune) (c : Converter) : Converter :=
  mkConverter (inputLength c) (cursor c) (inInlineMath c) (in_ c) (out c ++ encode s).

Definition emitRune (r : rune) (c : Converter) : Converter :=
  mkConverter (inputLength c) (cursor c) (inInlineMath c) (in_ c) (out c ++ encodeRune r).

(** [eq]: equal lengths, then equal runes at every index. *)
Definition eq (a b : list rune) : bool :=
  if negb (Nat.eqb (length a) (length b)) then false
  else forallb (fun p => fst p =? snd p) (combine a b).

(** Comparisons of a fetched rune, and of a lookahead, as the conditions of
    the program write them. *)
Definition eqRune (m : result rune) (x : rune) : result bool := r <- m ;; Ok (r =? x).
Definition neRune (m : result rune) (x : rune) : result bool := r <- m ;; Ok (negb (r =? x)).
Definition eqRunes (m : result (list rune)) (s : list rune) : result bool :=
  l <- m ;; Ok (eq l s).
Definition notR (m : result bool) : result bool := b <- m ;; Ok (negb b).

(** Positions left before end of input: the bound of every loop, each of
    whose rounds moves the cursor one position on. *)
Definition remaining (c : Converter) : nat := Z.to_nat (inputLength c - cursor c).

(** ** Parsing *)

(** A Go [for cond { body }] loop.  [fuel] bounds the number of rounds;
    the loops of the program are run with [remaining c], and every round of
    theirs moves the cursor on. *)
Fixpoint while (fuel : nat) (cond : Converter -> result bool)
    (body : Converter -> result Converter) (c : Converter) : result Converter :=
  go <- cond c ;;
  if go then
    match fuel with
    | O => OutOfFuel
    | S fuel' => c1 <- body c ;; while fuel' cond body c1
    end
  else Ok c.

(** [c.emitRune(c.current()); c.cursor += 1] *)
Definition copyCurrent (c : Converter) : result Converter :=
  r <- current c ;; Ok (advance 1 (emitRune r c)).

(** *** [handleComments] *)

(** [!c.atEof() && (c.current() != '-' || !eq(c.lookahead(2), "->"))] *)
Definition commentCond (c : Converter) : result bool :=
  andR (Ok (negb (atEof c)))
       (orR (neRune (current c) (rune_of "-"))
            (notR (eqRunes (lookahead 2 c) (runes "->")))).

Definition handleComments (c : Converter) : result (bool * Converter) :=
  skip <- orR (neRune (current c) (rune_of "<"))
              (notR (eqRunes (lookahead 3 c) (runes "!--"))) ;;
  if skip then Ok (false, c)
  else
    c1 <- while (remaining c) commentCond copyCurrent c ;;
    Ok (true, advance 3 (emit (runes "-->") c1)).

(** *** [handleCDATA] *)

(** [!c.atEof() && (c.current() != ']' || !eq(c.lookahead(2), "]>"))] *)
Definition cdataCond (c : Converter) : result bool :=
  andR (Ok (negb (atEof c)))
       (orR (neRune (current c) (rune_of "]"))
            (notR (eqRunes (lookahead 2 c) (runes "]>")))).

Definition handleCDATA (c : Converter) : result (bool * Converter) :=
  skip <- orR (neRune (current c) (rune_of "<"))
              (notR (eqRunes (lookahead 8 c) (runes "![CDATA["))) ;;
  if skip then Ok (false, c)
  else
    c1 <- while (remaining c) cdataCond (fun c => Ok (advance 1 c)) c ;;
    Ok (true, advance 3 c1).

(** *** [handleLatexCommand] *)

(** The condition of the loop that copies the command name. *)
Definition nameCond (c : Converter) : result bool :=
  andR (Ok (negb (atEof c)))
       (andR (neRune (current c) (rune_of "{"))
             (andR (neRune (current c) (rune_of "["))
                   (r <- current c ;; Ok (negb (IsSpace r))))).

(** The loop that copies the bracket groups; [nesting] is its local
    counter and the [break] is the [Ok c] of the first test. *)
Fixpoint commandArgs (fuel : nat) (nesting : Z) (c : Converter)
  : result Converter :=
  if atEof c then Ok c
  else
    stop <- andR (Ok (nesting =? 0))
                 (andR (neRune (current c) (rune_of "{"))
                       (neRune (current c) (rune_of "["))) ;;
    if stop then Ok c
    else
      opening <- orR (eqRune (current c) (rune_of "{"))
                     (eqRune (current c) (rune_of "[")) ;;
      let nesting1 := if opening then nesting + 1 else nesting in
      closing <- orR (eqRune (current c) (rune_of "}"))
                     (eqRune (current c) (rune_of "]")) ;;
      let nesting2 := if closing then nesting1 - 1 else nesting1 in
      match fuel with
      | O => OutOfFuel
      | S fuel' => c1 <- copyCurrent c ;; commandArgs fuel' nesting2 c1
      end.

Definition handleLatexCommand (emitCommentBlock : bool) (c : Converter)
  : result Converter :=
  let c0 := if emitCommentBlock then emit (runes "<!--") c else c in
  c1 <- while (remaining c0) nameCond copyCurrent c0 ;;
  c2 <- commandArgs (remaining c1) 0 c1 ;;
  Ok (if emitCommentBlock then emit (runes "-->") c2 else c2).

(** *** [handleLatexBlock] *)

(** The nesting counter after the test of the cursor: [+1] on [\begin],
    else [-1] on [\end]. *)
Definition blockNesting (nesting : Z) (c : Converter) : result Z :=
  isBegin <- andR (eqRune (current c) (rune_of "\"))
                  (eqRunes (lookahead 5 c) (runes "begin")) ;;
  if isBegin then Ok (nesting + 1)
  else
    isEnd <- andR (eqRune (current c) (rune_of "\"))
                  (eqRunes (lookahead 3 c) (runes "end")) ;;
    if isEnd then Ok (nesting - 1) else Ok nesting.

Fixpoint blockLoop (fuel : nat) (nesting : Z) (c : Converter)
  : result Converter :=
  if atEof c then Ok c
  else
    nesting1 <- blockNesting nesting c ;;
    if nesting1 =? 0 then
      c1 <- handleLatexCommand false c ;;
      Ok (emit (runes "-->") c1)
    else
      match fuel with
      | O => OutOfFuel
      | S fuel' => c1 <- copyCurrent c ;; blockLoop fuel' nesting1 c1
      end.

Definition handleLatexBlock (c : Converter) : result Converter :=
  let c0 := emit (runes "<!--") c in
  blockLoop (remaining c0) 0 c0.

(** *** [handleLatex] *)

Definition handleLatex (c : Converter) : result (bool * Converter) :=
  enter <- andR (Ok (negb (inInlineMath c)))
                (andR (eqRune (current c) (rune_of "\"))
                      (neRune (next c) (rune_of "\"))) ;;
  if enter then
    isBegin <- eqRunes (lookahead 5 c) (runes "begin") ;;
    c1 <- (if isBegin then handleLatexBlock c else handleLatexCommand true c) ;;
    Ok (true, c1)
  else Ok (false, c).

(** *** [handleInlineMath] *)

Definition handleInlineMath (c : Converter) : result (bool * Converter) :=
  escaped <- andR (eqRune (current c) (rune_of "\"))
                  (eqRune (next c) (rune_of "$")) ;;
  if escaped then Ok (true, advance 2 (emit (runes "\$") c))
  else
    other <- neRune (current c) (rune_of "$") ;;
    if other then Ok (false, c)
    else
      opens <- andR (Ok (cursor c >? 0))
                    (andR (eqRune (at_ c (cursor c - 1)) (rune_of " "))
                          (Ok (negb (inInlineMath c)))) ;;
      if opens then Ok (false, setInInlineMath true c)
      else
        closes <- andR (l <- lookahead 1 c ;; eqRune (index l 0) (rune_of " "))
                       (Ok (inInlineMath c)) ;;
        if closes then Ok (false, setInInlineMath false c)
        else Ok (false, c).

(** *** [Convert] *)

(** The recognizers, in the order in which the conversion loop tries them. *)
Inductive recognizer : Type := Comments | CDATA | InlineMath | Latex.

Definition recognize (h : recognizer) : Converter -> result (bool * Converter) :=
  match h with
  | Comments => handleComments
  | CDATA => handleCDATA
  | InlineMath => handleInlineMath
  | Latex => handleLatex
  end.

(** [if c.handleX() { continue }]: the first recognizer that claims the
    cursor ends the round. *)
Fixpoint firstClaim (hs : list recognizer) (c : Converter)
  : result (bool * Converter) :=
  match hs with
  | [] => Ok (false, c)
  | h :: hs' =>
    r <- recognize h c ;;
    if fst r then Ok (true, snd r) else firstClaim hs' (snd r)
  end.

(** One round of the conversion loop: the recognizers, then the copy of
    the rune under the cursor when none has claimed it. *)
Definition dispatch (c : Converter) : result Converter :=
  r <- firstClaim [Comments; CDATA; InlineMath; Latex] c ;;
  if fst r then Ok (snd r) else copyCurrent (snd r).

Definition Convert_loop (fuel : nat) (c : Converter) : result Converter :=
  while fuel (fun c => Ok (negb (atEof c))) dispatch c.

Definition Convert (c : Converter) : result (list byte) :=
  c1 <- Convert_loop (remaining c) c ;; Ok (out c1).

(** *** Utility *)

Definition ByteArrayToConverter (input : list byte) : Converter :=
  let r := Runes input in
  mkConverter (len r) 0 false r [].

Definition SXMD (input : list byte) : result (list byte) :=
  Convert (ByteArrayToConverter input).

(** The bytes of an ASCII string literal, for stating inputs and outputs. *)
Definition bytes (s : string) : list byte := map rune_of (list_ascii_of_string s).
Arguments bytes s%_string.

(** A converter as [ByteArrayToConverter] builds it and the methods keep
    it: [inputLength] is the length of the input and the cursor is not
    negative. *)
Definition wf (c : Converter) : Prop :=
  inputLength c = len (in_ c) /\ 0 <= cursor c.

(** ** Vocabulary of the statements *)

(** A computation that does not exhaust a loop bound. *)
Definition pure {A : Type} (m : result A) : Prop := m <> OutOfFuel.

(** What every method keeps: the input and its recorded length, and, all
    but [handleInlineMath], the mode flag; the cursor never moves back. *)
Definition sameInput (c c' : Converter) : Prop :=
  inputLength c' = inputLength c /\ in_ c' = in_ c.

Definition forward (c c' : Converter) : Prop :=
  sameInput c c' /\ inInlineMath c' = inInlineMath c /\ cursor c <= cursor c'.

(** The ways in which a round completes. *)
Inductive round (c c' : Converter) : Prop :=
| round_comment : handleComments c = Ok (true, c') -> round c c'
| round_cdata :
    handleComments c = Ok (false, c) -> handleCDATA c = Ok (true, c') ->
    round c c'
| round_escape :
    handleComments c = Ok (false, c) -> handleCDATA c = Ok (false, c) ->
    handleInlineMath c = Ok (true, c') -> round c c'
| round_latex (b : bool) :
    handleComments c = Ok (false, c) -> handleCDATA c = Ok (false, c) ->
    handleInlineMath c = Ok (false, setInInlineMath b c) ->
    handleLatex (setInInlineMath b c) = Ok (true, c') -> round c c'
| round_copy (b : bool) :
    handleComments c = Ok (false, c) -> handleCDATA c = Ok (false, c) ->
    handleInlineMath c = Ok (false, setInInlineMath b c) ->
    handleLatex (setInInlineMath b c) = Ok (false, setInInlineMath b c) ->
    copyCurrent (setInInlineMath b c) = Ok c' -> round c c'.

(** The runes [s[lo:hi]] of a slice expression that is in bounds. *)
Definition span (s : list rune) (lo hi : Z) : list rune :=
  firstn (Z.to_nat (hi - lo)) (skipn (Z.to_nat lo) s).

(** The rounds that the conversion loop runs one after the other. *)
Inductive rounds : Converter -> Converter -> Prop :=
| rounds_refl (c : Converter) : rounds c c
| rounds_step (c c1 c' : Converter) :
    atEof c = false -> dispatch c = Ok c1 -> rounds c1 c' -> rounds c c'.

(** The converter after its remaining input has been copied. *)
Definition copiedToEof (c : Converter) : Converter :=
  mkConverter (inputLength c) (Z.max (cursor c) (inputLength c))
    (inInlineMath c) (in_ c)
    (out c ++ encode (span (in_ c) (cursor c) (inputLength c))).

(** The nesting counter of the block rewriter, [k] runes further on. *)
Fixpoint nestingAfter (k : nat) (nesting : Z) (c : Converter) : result Z :=
  match k with
  | O => Ok nesting
  | S k' => n1 <- blockNesting nesting c ;; nestingAfter k' n1 (advance 1 c)
  end.

(** ** Elementary facts *)

Lemma bind_Ok {A B : Type} (m : result A) (k : A -> result B) (b : B) :
  bind m k = Ok b -> exists a, m = Ok a /\ k a = Ok b.
Proof. destruct m; simpl; intros H; try discriminate. now exists a. Qed.

Lemma bind_fuel {A B : Type} (m : result A) (k : A -> result B) :
  m <> OutOfFuel -> (forall a, m = Ok a -> k a <> OutOfFuel) ->
  bind m k <> OutOfFuel.
Proof.
  destruct m; simpl; intros Hm Hk;
    [apply Hk; reflexivity | discriminate | now elim Hm].
Qed.

(** Decompose every hypothesis that a sequence of binds returned. *)
Ltac inv_bind :=
  repeat match goal with
  | H : bind _ _ = Ok _ |- _ =>
    let a := fresh "a" in
    let Ha := fresh "Ha" in
    apply bind_Ok in H; destruct H as (a & Ha & H)
  | H : Ok _ = Ok _ |- _ => injection H as H; try subst
  | H : (_, _) = (_, _) |- _ => injection H as H; try subst
  | H : Panic = Ok _ |- _ => discriminate H
  | H : OutOfFuel = Ok _ |- _ => discriminate H
  end.

Lemma andR_true (a b : result bool) :
  andR a b = Ok true <-> a = Ok true /\ b = Ok true.
Proof.
  unfold andR; destruct a as [[|]| |]; simpl; split;
    try tauto; intros; try discriminate; intuition discriminate.
Qed.

Lemma orR_false (a b : result bool) :
  orR a b = Ok false <-> a = Ok false /\ b = Ok false.
Proof.
  unfold orR; destruct a as [[|]| |]; simpl; split;
    try tauto; intros; try discriminate; intuition discriminate.
Qed.

Lemma eqRune_true (m : result rune) (x : rune) :
  eqRune m x = Ok true <-> m = Ok x.
Proof.
  unfold eqRune; destruct m as [r| |]; simpl; split; intros H; try discriminate.
  - injection H as H. apply Z.eqb_eq in H. now subst.
  - injection H as H. subst. now rewrite Z.eqb_refl.
Qed.

Lemma neRune_false (m : result rune) (x : rune) :
  neRune m x = Ok false <-> m = Ok x.
Proof.
  unfold neRune; destruct m as [r| |]; simpl; split; intros H; try discriminate.
  - injection H as H. apply negb_false_iff, Z.eqb_eq in H. now subst.
  - injection H as H. subst. now rewrite Z.eqb_refl.
Qed.

Lemma eq_spec (a b : list rune) : eq a b = true <-> a = b.
Proof.
  unfold eq. revert b. induction a as [|x a IH]; intros [|y b]; simpl;
    try (split; [discriminate|discriminate]); try tauto.
  specialize (IH b). destruct (Nat.eqb (length a) (length b)) eqn:E; simpl in *.
  - rewrite andb_true_iff, Z.eqb_eq, IH. split.
    + intros [-> ->]. reflexivity.
    + intros H. injection H as -> ->. tauto.
  - split; [discriminate|]. intros H. injection H as -> ->.
    rewrite Nat.eqb_refl in E. discriminate.
Qed.

Lemma eqRunes_true (m : result (list rune)) (s : list rune) :
  eqRunes m s = Ok true <-> m = Ok s.
Proof.
  unfold eqRunes; destruct m as [l| |]; simpl; split; intros H; try discriminate.
  - injection H as H. apply eq_spec in H. now subst.
  - injection H as H. subst. f_equal. now apply eq_spec.
Qed.

Lemma notR_false (m : result bool) : notR m = Ok false <-> m = Ok true.
Proof.
  unfold notR; destruct m as [[|]| |]; simpl; split; intros H;
    try discriminate; reflexivity.
Qed.

Lemma index_Ok (s : list rune) (i : Z) (r : rune) :
  index s i = Ok r <-> 0 <= i < len s /\ nth_error s (Z.to_nat i) = Some r.
Proof.
  unfold index.
  destruct (0 <=? i) eqn:E1; destruct (i <? len s) eqn:E2; simpl;
    try (split; [discriminate | lia]).
  destruct (nth_error s (Z.to_nat i)) eqn:E3.
  - split.
    + intros H. injection H as ->. split; [lia | reflexivity].
    + intros [_ H]. congruence.
  - split; [discriminate|]. intros [_ H]. discriminate.
Qed.

Lemma index_in_range (s : list rune) (i : Z) :
  0 <= i < len s -> exists r, index s i = Ok r.
Proof.
  intros H. destruct (nth_error s (Z.to_nat i)) eqn:E.
  - exists r. apply index_Ok. auto.
  - apply nth_error_None in E. unfold len in H. lia.
Qed.

Lemma slice_Ok (s : list rune) (lo hi : Z) (l : list rune) :
  slice s lo hi = Ok l <->
  (0 <= lo <= hi /\ hi <= len s) /\
  l = firstn (Z.to_nat (hi - lo)) (skipn (Z.to_nat lo) s).
Proof.
  unfold slice.
  destruct (0 <=? lo) eqn:E1; destruct (lo <=? hi) eqn:E2;
    destruct (hi <=? len s) eqn:E3; simpl;
    try (split; [discriminate | lia]).
  split.
  - intros H. injection H as <-. split; [lia | reflexivity].
  - intros [_ ->]. reflexivity.
Qed.

(** *** Reading the input never exhausts a loop bound *)

Lemma pure_Ok {A : Type} (a : A) : pure (Ok a).
Proof. discriminate. Qed.

Lemma pure_bind {A B : Type} (m : result A) (k : A -> result B) :
  pure m -> (forall a, pure (k a)) -> pure (bind m k).
Proof. intros Hm Hk. apply bind_fuel; [exact Hm | intros a _; apply Hk]. Qed.

Lemma pure_index (s : list rune) (i : Z) : pure (index s i).
Proof.
  unfold pure, index.
  destruct ((0 <=? i) && (i <? len s)); [|discriminate].
  destruct (nth_error s (Z.to_nat i)); discriminate.
Qed.

Lemma pure_slice (s : list rune) (lo hi : Z) : pure (slice s lo hi).
Proof.
  unfold pure, slice.
  destruct ((0 <=? lo) && (lo <=? hi) && (hi <=? len s)); discriminate.
Qed.

Lemma pure_if {A : Type} (b : bool) (x y : result A) :
  pure x -> pure y -> pure (if b then x else y).
Proof. destruct b; auto. Qed.

Ltac pure_tac :=
  repeat first
    [ apply pure_Ok | apply pure_index | apply pure_slice
    | apply pure_bind; [|intros ?] | apply pure_if
    | progress unfold andR, orR, notR, eqRune, neRune, eqRunes,
        current, next, prev, at_, lookahead ].

Lemma pure_commentCond (c : Converter) : pure (commentCond c).
Proof. unfold commentCond. pure_tac. Qed.

Lemma pure_cdataCond (c : Converter) : pure (cdataCond c).
Proof. unfold cdataCond. pure_tac. Qed.

Lemma pure_nameCond (c : Converter) : pure (nameCond c).
Proof. unfold nameCond. pure_tac. Qed.

Lemma pure_blockNesting (n : Z) (c : Converter) : pure (blockNesting n c).
Proof. unfold blockNesting. pure_tac. Qed.

Lemma pure_copyCurrent (c : Converter) : pure (copyCurrent c).
Proof. unfold copyCurrent. pure_tac. Qed.

(** *** UTF-8 on the documents of the statements *)

Example Runes_multibyte :
  Runes [0xC3; 0xA9; 0xE2; 0x82; 0xAC; 0xF0; 0x9F; 0x98; 0x80; 0xFF; 0x41]
  = [0xE9; 0x20AC; 0x1F600; RuneError; 0x41].
Proof. vm_compute. reflexivity. Qed.

Example encode_multibyte :
  encode [0xE9; 0x20AC; 0x1F600; 0xD800; 0x41]
  = [0xC3; 0xA9; 0xE2; 0x82; 0xAC; 0xF0; 0x9F; 0x98; 0x80; 0xEF; 0xBF; 0xBD; 0x41].
Proof. vm_compute. reflexivity. Qed.

(** ASCII bytes decode to themselves and are encoded as themselves. *)
Lemma Runes_loop_ascii (s : list byte) :
  forall fuel, (length s <= fuel)%nat ->
  Forall (fun b => 0 <= b < 0x80) s -> Runes_loop fuel s = s.
Proof.
  induction s as [|b s IH]; intros fuel Hf Ha.
  - now destruct fuel.
  - destruct fuel as [|fuel]; [simpl in Hf; lia|].
    inversion Ha as [|? ? Hb Hs]; subst.
    change (Runes_loop (S fuel) (b :: s))
      with (let (r, l) := DecodeRune (b :: s) in
            r :: Runes_loop fuel (skipn l (b :: s))).
    assert (E : DecodeRune (b :: s) = (b, 1%nat)).
    { unfold DecodeRune. destruct (b <? 0x80) eqn:E; [reflexivity|].
      apply Z.ltb_ge in E. lia. }
    rewrite E. simpl skipn. f_equal. apply IH; [simpl in Hf; lia | exact Hs].
Qed.

Lemma Runes_ascii (s : list byte) :
  Forall (fun b => 0 <= b < 0x80) s -> Runes s = s.
Proof. intros H. apply Runes_loop_ascii; [apply le_n | exact H]. Qed.

Lemma encode_ascii (s : list rune) :
  Forall (fun r => 0 <= r < 0x80) s -> encode s = s.
Proof.
  induction 1 as [|r s Hr Hs IH]; [reflexivity|].
  unfold encode in *. simpl. rewrite IH. unfold encodeRune.
  destruct (0 <=? r) eqn:E1; destruct (r <=? 0x7F) eqn:E2; simpl;
    try reflexivity; lia.
Qed.

(** *** Converters in good form *)

Lemma wf_ByteArrayToConverter (input : list byte) :
  wf (ByteArrayToConverter input).
Proof. unfold wf, ByteArrayToConverter. simpl. split; [reflexivity | lia]. Qed.

(** ** The cursor only moves forward *)

Lemma forward_refl (c : Converter) : forward c c.
Proof. unfold forward, sameInput. repeat split; lia. Qed.

Lemma forward_trans (a b c : Converter) : forward a b -> forward b c -> forward a c.
Proof.
  unfold forward, sameInput. intros (? & ? & ?) (? & ? & ?).
  repeat split; try congruence; try lia; intuition congruence.
Qed.

Lemma forward_emit (s : list rune) (c : Converter) : forward c (emit s c).
Proof. unfold forward, sameInput. simpl. repeat split; lia. Qed.

Lemma forward_advance (n : Z) (c : Converter) : 0 <= n -> forward c (advance n c).
Proof. unfold forward, sameInput. simpl. repeat split; lia. Qed.

Lemma copyCurrent_Ok (c c1 : Converter) :
  copyCurrent c = Ok c1 ->
  exists r, current c = Ok r /\ c1 = advance 1 (emitRune r c).
Proof. unfold copyCurrent. intros H. inv_bind. eauto. Qed.

Lemma copyCurrent_forward (c c1 : Converter) :
  copyCurrent c = Ok c1 -> forward c c1 /\ cursor c1 = cursor c + 1.
Proof.
  intros H. apply copyCurrent_Ok in H as (r & _ & ->).
  unfold forward, sameInput. simpl. repeat split; lia.
Qed.

(** A relation that every round of a loop keeps holds between its start
    and its end, where the condition is false. *)
Lemma while_Ok (R : Converter -> Converter -> Prop)
    (cond : Converter -> result bool) (body : Converter -> result Converter) :
  (forall c, R c c) ->
  (forall a b c, R a b -> R b c -> R a c) ->
  (forall c c1, cond c = Ok true -> body c = Ok c1 -> R c c1) ->
  forall fuel c c', while fuel cond body c = Ok c' ->
  R c c' /\ cond c' = Ok false.
Proof.
  intros Hrefl Htrans Hstep. induction fuel as [|fuel IH]; intros c c' H;
    simpl in H; apply bind_Ok in H as ([|] & Hc & H); try discriminate.
  - injection H as <-. auto.
  - apply bind_Ok in H as (c1 & Hb & H). apply IH in H as [H1 H2].
    split; [|exact H2]. eapply Htrans; [|exact H1]. now apply Hstep.
  - injection H as <-. auto.
Qed.

Lemma atEof_false (c : Converter) : atEof c = false <-> cursor c < inputLength c.
Proof. unfold atEof. rewrite Z.geb_leb, Z.leb_gt. tauto. Qed.

Lemma andR_negb_atEof (c : Converter) (b : result bool) :
  andR (Ok (negb (atEof c))) b = Ok true -> atEof c = false.
Proof. intros H. apply andR_true in H as [H _]. injection H as H. now apply negb_true_iff. Qed.

Lemma remaining_pos (c : Converter) : atEof c = false -> (0 < remaining c)%nat.
Proof. rewrite atEof_false. unfold remaining. lia. Qed.

Lemma remaining_less (c c1 : Converter) :
  atEof c = false -> inputLength c1 = inputLength c -> cursor c < cursor c1 ->
  (remaining c1 < remaining c)%nat.
Proof. rewrite atEof_false. unfold remaining. lia. Qed.

(** *** The loop bounds suffice *)

Lemma while_total (cond : Converter -> result bool)
    (body : Converter -> result Converter) :
  (forall c, pure (cond c)) ->
  (forall c, cond c = Ok true -> pure (body c)) ->
  (forall c, cond c = Ok true -> atEof c = false) ->
  (forall c c1, cond c = Ok true -> body c = Ok c1 ->
     inputLength c1 = inputLength c /\ cursor c < cursor c1) ->
  forall fuel c, (remaining c <= fuel)%nat -> pure (while fuel cond body c).
Proof.
  intros Hc Hb He Hs. induction fuel as [|fuel IH]; intros c Hf; simpl;
    (apply bind_fuel; [apply Hc|]); intros [|] Hgo; try discriminate.
  - apply He, remaining_pos in Hgo. lia.
  - apply bind_fuel; [now apply Hb|]. intros c1 Hc1. apply IH.
    destruct (Hs _ _ Hgo Hc1) as [H1 H2].
    pose proof (remaining_less c c1 (He _ Hgo) H1 H2). lia.
Qed.

Lemma copy_while_total (cond : Converter -> result bool) (c : Converter) :
  (forall c, pure (cond c)) ->
  (forall c, cond c = Ok true -> atEof c = false) ->
  pure (while (remaining c) cond copyCurrent c).
Proof.
  intros Hc He. apply while_total; auto.
  - intros; apply pure_copyCurrent.
  - intros a b _ H. apply copyCurrent_forward in H as [(H1 & _) H2].
    split; [apply H1 | lia].
Qed.

Lemma copy_while_forward (cond : Converter -> result bool) (fuel : nat)
    (c c' : Converter) :
  while fuel cond copyCurrent c = Ok c' -> forward c c' /\ cond c' = Ok false.
Proof.
  apply while_Ok.
  - apply forward_refl.
  - apply forward_trans.
  - intros a b _ H. now apply copyCurrent_forward in H.
Qed.

Lemma commandArgs_total (fuel : nat) :
  forall (n : Z) (c : Converter),
  (remaining c <= fuel)%nat -> pure (commandArgs fuel n c).
Proof.
  induction fuel as [|fuel IH]; intros n c Hf; simpl;
    destruct (atEof c) eqn:E; try discriminate;
    (apply pure_bind; [pure_tac|]; intros stop; destruct stop; [discriminate|]);
    (apply pure_bind; [pure_tac|]; intros opening);
    (apply pure_bind; [pure_tac|]; intros closing).
  - apply remaining_pos in E. lia.
  - apply bind_fuel; [apply pure_copyCurrent|]. intros c1 H1. apply IH.
    apply copyCurrent_forward in H1 as [(H1 & _) H2].
    pose proof (remaining_less c c1 E (proj1 H1)). lia.
Qed.

Lemma commandArgs_forward (fuel : nat) :
  forall (n : Z) (c c' : Converter),
  commandArgs fuel n c = Ok c' -> forward c c'.
Proof.
  induction fuel as [|fuel IH]; intros n c c' H; simpl in H;
    destruct (atEof c) eqn:E;
    try (injection H as <-; apply forward_refl);
    apply bind_Ok in H as ([|] & Hs & H);
    try (injection H as <-; apply forward_refl);
    apply bind_Ok in H as (opening & Ho & H);
    apply bind_Ok in H as (closing & Hc & H); try discriminate.
  apply bind_Ok in H as (c1 & H1 & H). apply IH in H.
  apply copyCurrent_forward in H1 as [H1 _]. eapply forward_trans; eauto.
Qed.

Lemma handleLatexCommand_total (b : bool) (c : Converter) :
  pure (handleLatexCommand b c).
Proof.
  unfold handleLatexCommand. apply pure_bind.
  - apply copy_while_total; [apply pure_nameCond|].
    intros c0. apply andR_negb_atEof.
  - intros c1. apply pure_bind; [|intros; apply pure_Ok].
    apply commandArgs_total. lia.
Qed.

Lemma handleLatexCommand_forward (b : bool) (c c' : Converter) :
  handleLatexCommand b c = Ok c' -> forward c c'.
Proof.
  unfold handleLatexCommand. intros H.
  apply bind_Ok in H as (c1 & H1 & H). apply bind_Ok in H as (c2 & H2 & H).
  injection H as <-.
  apply copy_while_forward in H1 as [H1 _]. apply commandArgs_forward in H2.
  destruct b.
  - eapply forward_trans; [apply forward_emit|].
    eapply forward_trans; [exact H1|].
    eapply forward_trans; [exact H2|]. apply forward_emit.
  - eapply forward_trans; eauto.
Qed.

Lemma blockLoop_total (fuel : nat) :
  forall (n : Z) (c : Converter),
  (remaining c <= fuel)%nat -> pure (blockLoop fuel n c).
Proof.
  induction fuel as [|fuel IH]; intros n c Hf; simpl;
    destruct (atEof c) eqn:E; try discriminate;
    (apply pure_bind; [apply pure_blockNesting|]; intros n1);
    destruct (n1 =? 0);
    try (apply pure_bind; [apply handleLatexCommand_total | intros; apply pure_Ok]).
  - apply remaining_pos in E. lia.
  - apply bind_fuel; [apply pure_copyCurrent|]. intros c1 H1. apply IH.
    apply copyCurrent_forward in H1 as [(H1 & _) H2].
    pose proof (remaining_less c c1 E (proj1 H1)). lia.
Qed.

Lemma blockLoop_forward (fuel : nat) :
  forall (n : Z) (c c' : Converter),
  blockLoop fuel n c = Ok c' -> forward c c'.
Proof.
  induction fuel as [|fuel IH]; intros n c c' H; simpl in H;
    destruct (atEof c) eqn:E;
    try (injection H as <-; apply forward_refl);
    apply bind_Ok in H as (n1 & Hn & H);
    destruct (n1 =? 0); try discriminate;
    try (apply bind_Ok in H as (c1 & H1 & H); injection H as <-;
         apply handleLatexCommand_forward in H1;
         eapply forward_trans; [exact H1 | apply forward_emit]).
  apply bind_Ok in H as (c1 & H1 & H). apply IH in H.
  apply copyCurrent_forward in H1 as [H1 _]. eapply forward_trans; eauto.
Qed.

(** *** The recognizers *)

Lemma handleComments_false (c c' : Converter) :
  handleComments c = Ok (false, c') -> c' = c.
Proof.
  unfold handleComments. intros H. apply bind_Ok in H as ([|] & _ & H).
  - now injection H as <-.
  - apply bind_Ok in H as (c1 & _ & H). discriminate.
Qed.

Lemma handleComments_true (c c' : Converter) :
  handleComments c = Ok (true, c') -> forward c c' /\ cursor c + 3 <= cursor c'.
Proof.
  unfold handleComments. intros H. apply bind_Ok in H as ([|] & _ & H);
    [discriminate|].
  apply bind_Ok in H as (c1 & H1 & H). injection H as <-.
  apply copy_while_forward in H1 as [(Hs & Hm & Hc) _].
  unfold forward, sameInput in *. simpl. intuition lia.
Qed.

Lemma handleComments_total (c : Converter) : pure (handleComments c).
Proof.
  unfold handleComments. apply pure_bind; [pure_tac|]. intros [|]; [apply pure_Ok|].
  apply pure_bind; [|intros; apply pure_Ok].
  apply copy_while_total; [apply pure_commentCond|].
  intros c0. apply andR_negb_atEof.
Qed.

Lemma skip_while_forward (cond : Converter -> result bool) (fuel : nat)
    (c c' : Converter) :
  while fuel cond (fun c => Ok (advance 1 c)) c = Ok c' ->
  (forward c c' /\ out c' = out c) /\ cond c' = Ok false.
Proof.
  apply (while_Ok (fun a b => forward a b /\ out b = out a)).
  - intros a. split; [apply forward_refl | reflexivity].
  - intros x y z [H1 H2] [H3 H4]. split; [eapply forward_trans; eauto | congruence].
  - intros a b _ H. injection H as <-. split; [apply forward_advance; lia | reflexivity].
Qed.

Lemma handleCDATA_false (c c' : Converter) :
  handleCDATA c = Ok (false, c') -> c' = c.
Proof.
  unfold handleCDATA. intros H. apply bind_Ok in H as ([|] & _ & H).
  - now injection H as <-.
  - apply bind_Ok in H as (c1 & _ & H). discriminate.
Qed.

Lemma handleCDATA_true (c c' : Converter) :
  handleCDATA c = Ok (true, c') ->
  forward c c' /\ cursor c + 3 <= cursor c' /\ out c' = out c.
Proof.
  unfold handleCDATA. intros H. apply bind_Ok in H as ([|] & _ & H);
    [discriminate|].
  apply bind_Ok in H as (c1 & H1 & H). injection H as <-.
  apply skip_while_forward in H1 as [[(Hs & Hm & Hc) Ho] _].
  unfold forward, sameInput in *. simpl. intuition lia.
Qed.

Lemma handleCDATA_total (c : Converter) : pure (handleCDATA c).
Proof.
  unfold handleCDATA. apply pure_bind; [pure_tac|]. intros [|]; [apply pure_Ok|].
  apply pure_bind; [|intros; apply pure_Ok].
  apply while_total.
  - apply pure_cdataCond.
  - intros; apply pure_Ok.
  - intros c0. apply andR_negb_atEof.
  - intros a b _ H. injection H as <-. simpl. split; [reflexivity | lia].
  - reflexivity.
Qed.

(** [handleInlineMath] claims the escape [\$] only; on a [$] it returns
    the converter with at most the mode flag changed. *)
Lemma handleInlineMath_true (c c' : Converter) :
  handleInlineMath c = Ok (true, c') ->
  current c = Ok (rune_of "\") /\ next c = Ok (rune_of "$") /\
  c' = advance 2 (emit (runes "\$") c).
Proof.
  unfold handleInlineMath. intros H. apply bind_Ok in H as ([|] & He & H).
  - injection H as <-. apply andR_true in He as [H1 H2].
    apply eqRune_true in H1, H2. auto.
  - apply bind_Ok in H as ([|] & _ & H); [discriminate|].
    apply bind_Ok in H as ([|] & _ & H); [discriminate|].
    apply bind_Ok in H as ([|] & _ & H); discriminate.
Qed.

Lemma handleInlineMath_false (c c' : Converter) :
  handleInlineMath c = Ok (false, c') ->
  exists b, c' = setInInlineMath b c /\
            (current c <> Ok (rune_of "$") -> b = inInlineMath c).
Proof.
  unfold handleInlineMath. intros H. apply bind_Ok in H as ([|] & He & H);
    [discriminate|].
  assert (Hid : c = setInInlineMath (inInlineMath c) c) by now destruct c.
  apply bind_Ok in H as ([|] & Hd & H).
  { injection H as <-. exists (inInlineMath c). auto. }
  apply neRune_false in Hd.
  apply bind_Ok in H as ([|] & _ & H).
  { injection H as <-. exists true. split; [reflexivity | congruence]. }
  apply bind_Ok in H as ([|] & _ & H); injection H as <-.
  - exists false. split; [reflexivity | congruence].
  - exists (inInlineMath c). auto.
Qed.

Lemma handleInlineMath_total (c : Converter) : pure (handleInlineMath c).
Proof.
  unfold handleInlineMath.
  repeat first [ apply pure_Ok | apply pure_bind; [pure_tac | intros [|]] ].
Qed.

Lemma while_enter (fuel : nat) (cond : Converter -> result bool)
    (body : Converter -> result Converter) (c : Converter) :
  cond c = Ok true ->
  while (S fuel) cond body c = (c1 <- body c ;; while fuel cond body c1).
Proof. intros H. simpl. now rewrite H. Qed.

Lemma remaining_S (c : Converter) :
  atEof c = false -> exists n, remaining c = S n.
Proof.
  intros H. apply remaining_pos in H. destruct (remaining c); [lia | eauto].
Qed.

Lemma nameCond_backslash (c : Converter) :
  atEof c = false -> current c = Ok (rune_of "\") -> nameCond c = Ok true.
Proof. intros He Hc. unfold nameCond. rewrite He, Hc. reflexivity. Qed.

(** Entered on a backslash before end of input, the command rewriter
    consumes at least the backslash. *)
Lemma handleLatexCommand_strict (b : bool) (c c' : Converter) :
  atEof c = false -> current c = Ok (rune_of "\") ->
  handleLatexCommand b c = Ok c' -> cursor c < cursor c'.
Proof.
  intros He Hc. unfold handleLatexCommand.
  set (c0 := if b then emit (runes "<!--") c else c).
  assert (He0 : atEof c0 = false) by (destruct b; exact He).
  assert (Hc0 : current c0 = Ok (rune_of "\")) by (destruct b; exact Hc).
  assert (Hcur : cursor c0 = cursor c) by (destruct b; reflexivity).
  destruct (remaining_S _ He0) as (n & ->).
  rewrite while_enter by now apply nameCond_backslash.
  intros H. apply bind_Ok in H as (c1 & H1 & H).
  apply bind_Ok in H1 as (c1' & Hb & H1).
  apply copyCurrent_forward in Hb as [_ Hb].
  apply copy_while_forward in H1 as [(_ & _ & H1) _].
  apply bind_Ok in H as (c2 & H2 & H). injection H as <-.
  apply commandArgs_forward in H2 as (_ & _ & H2).
  destruct b; simpl; lia.
Qed.

Lemma blockNesting_begin (c : Converter) :
  current c = Ok (rune_of "\") -> lookahead 5 c = Ok (runes "begin") ->
  blockNesting 0 c = Ok 1.
Proof. intros Hc Hl. unfold blockNesting. rewrite Hc, Hl. reflexivity. Qed.

(** Entered on [\begin] before end of input, the block rewriter consumes
    at least the backslash. *)
Lemma handleLatexBlock_strict (c c' : Converter) :
  atEof c = false -> current c = Ok (rune_of "\") ->
  lookahead 5 c = Ok (runes "begin") ->
  handleLatexBlock c = Ok c' -> forward c c' /\ cursor c < cursor c'.
Proof.
  intros He Hc Hl. unfold handleLatexBlock.
  set (c0 := emit (runes "<!--") c).
  assert (He0 : atEof c0 = false) by exact He.
  destruct (remaining_S _ He0) as (n & ->). simpl. rewrite He0.
  rewrite (blockNesting_begin c0 Hc Hl). simpl.
  intros H. apply bind_Ok in H as (c1 & H1 & H).
  apply copyCurrent_forward in H1 as [H1 H1'].
  apply blockLoop_forward in H.
  split.
  - eapply forward_trans; [apply (forward_emit (runes "<!--"))|].
    eapply forward_trans; eauto.
  - destruct H as (_ & _ & H). simpl in H1'. lia.
Qed.

Lemma handleLatexBlock_total (c : Converter) : pure (handleLatexBlock c).
Proof. unfold handleLatexBlock. apply blockLoop_total. lia. Qed.

Lemma handleLatex_false (c c' : Converter) :
  handleLatex c = Ok (false, c') -> c' = c.
Proof.
  unfold handleLatex. intros H. apply bind_Ok in H as ([|] & _ & H).
  - apply bind_Ok in H as (b & _ & H). apply bind_Ok in H as (c1 & _ & H).
    discriminate.
  - now injection H as <-.
Qed.

Lemma handleLatex_true (c c' : Converter) :
  atEof c = false -> handleLatex c = Ok (true, c') ->
  forward c c' /\ cursor c < cursor c'.
Proof.
  intros He. unfold handleLatex. intros H.
  apply bind_Ok in H as ([|] & Hen & H); [|discriminate].
  apply andR_true in Hen as [_ Hen]. apply andR_true in Hen as [Hc _].
  apply eqRune_true in Hc.
  apply bind_Ok in H as (b & Hb & H). apply bind_Ok in H as (c1 & H1 & H).
  injection H as <-. destruct b.
  - apply eqRunes_true in Hb. now apply handleLatexBlock_strict.
  - split; [now apply handleLatexCommand_forward in H1|].
    now apply handleLatexCommand_strict in H1.
Qed.

Lemma handleLatex_total (c : Converter) : pure (handleLatex c).
Proof.
  unfold handleLatex. apply pure_bind; [pure_tac|]. intros [|]; [|apply pure_Ok].
  apply pure_bind; [pure_tac|]. intros [|];
    (apply pure_bind; [|intros; apply pure_Ok]).
  - apply handleLatexBlock_total.
  - apply handleLatexCommand_total.
Qed.

Lemma handleLatex_forward (b : bool) (c c' : Converter) :
  handleLatex c = Ok (b, c') -> forward c c'.
Proof.
  destruct b; [|intros H; apply handleLatex_false in H; subst; apply forward_refl].
  unfold handleLatex. intros H.
  apply bind_Ok in H as ([|] & _ & H); [|discriminate].
  apply bind_Ok in H as (b & _ & H). apply bind_Ok in H as (c1 & H1 & H).
  injection H as <-. destruct b.
  - unfold handleLatexBlock in H1. apply blockLoop_forward in H1.
    eapply forward_trans; [apply (forward_emit (runes "<!--"))|exact H1].
  - now apply handleLatexCommand_forward in H1.
Qed.

(** *** One round of the conversion loop *)

Lemma dispatch_round (c c' : Converter) : dispatch c = Ok c' <-> round c c'.
Proof.
  unfold dispatch, firstClaim, recognize. split.
  - intros H. apply bind_Ok in H as ([b r] & H1 & H).
    apply bind_Ok in H1 as ([b1 c1] & Hc & H1). simpl in H1.
    destruct b1.
    { injection H1 as <- <-. simpl in H. injection H as <-.
      now apply round_comment. }
    pose proof (handleComments_false _ _ Hc) as ->.
    apply bind_Ok in H1 as ([b2 c2] & Hd & H1). simpl in H1.
    destruct b2.
    { injection H1 as <- <-. simpl in H. injection H as <-.
      now apply round_cdata. }
    pose proof (handleCDATA_false _ _ Hd) as ->.
    apply bind_Ok in H1 as ([b3 c3] & Hm & H1). simpl in H1.
    destruct b3.
    { injection H1 as <- <-. simpl in H. injection H as <-.
      now apply round_escape. }
    destruct (handleInlineMath_false _ _ Hm) as (m & -> & _).
    apply bind_Ok in H1 as ([b4 c4] & Hl & H1). simpl in H1.
    destruct b4.
    { injection H1 as <- <-. simpl in H. injection H as <-.
      now apply round_latex with m. }
    pose proof (handleLatex_false _ _ Hl) as ->.
    injection H1 as <- <-. simpl in H. now apply round_copy with m.
  - intros [H1|H1 H2|H1 H2 H3|b H1 H2 H3 H4|b H1 H2 H3 H4 H5];
      repeat match goal with H : _ = Ok _ |- _ => rewrite H; clear H; simpl end;
      reflexivity.
Qed.

Lemma atEof_setInInlineMath (b : bool) (c : Converter) :
  atEof (setInInlineMath b c) = atEof c.
Proof. reflexivity. Qed.

Lemma dispatch_step (c c' : Converter) :
  atEof c = false -> dispatch c = Ok c' ->
  sameInput c c' /\ cursor c < cursor c'.
Proof.
  intros He H. apply dispatch_round in H.
  destruct H as [H1|H1 H2|H1 H2 H3|b H1 H2 H3 H4|b H1 H2 H3 H4 H5].
  - apply handleComments_true in H1 as [(Hs & _) Hc]. split; [exact Hs | lia].
  - apply handleCDATA_true in H2 as [(Hs & _) [Hc _]]. split; [exact Hs | lia].
  - apply handleInlineMath_true in H3 as (_ & _ & ->).
    unfold sameInput. simpl. repeat split; lia.
  - apply handleLatex_true in H4 as [(Hs & _) Hc]; [|exact He].
    split; [exact Hs | exact Hc].
  - apply copyCurrent_forward in H5 as [(Hs & _) Hc]. split; [exact Hs|].
    simpl in Hc. lia.
Qed.

(** A round keeps the converter in good form. *)
Lemma dispatch_wf (c c' : Converter) :
  wf c -> atEof c = false -> dispatch c = Ok c' -> wf c'.
Proof.
  intros [Hl Hp] He H. destruct (dispatch_step c c' He H) as [[H1 H2] H3].
  split; [congruence | lia].
Qed.

Lemma dispatch_total (c : Converter) : pure (dispatch c).
Proof.
  unfold dispatch, firstClaim, recognize.
  apply pure_bind.
  - apply pure_bind; [apply handleComments_total|]. intros [[|] c1]; simpl;
      [apply pure_Ok|].
    apply pure_bind; [apply handleCDATA_total|]. intros [[|] c2]; simpl;
      [apply pure_Ok|].
    apply pure_bind; [apply handleInlineMath_total|]. intros [[|] c3]; simpl;
      [apply pure_Ok|].
    apply pure_bind; [apply handleLatex_total|]. intros [[|] c4]; simpl;
      apply pure_Ok.
  - intros [[|] c1]; simpl; [apply pure_Ok | apply pure_copyCurrent].
Qed.

(** The conversion loop never exhausts its bound: for every converter it
    returns or it panics. *)
Lemma Convert_loop_total (c : Converter) : pure (Convert_loop (remaining c) c).
Proof.
  unfold Convert_loop. apply while_total.
  - intros; apply pure_Ok.
  - intros; apply dispatch_total.
  - intros c0 H. injection H as H. now apply negb_true_iff.
  - intros a b Ha H. injection Ha as Ha. apply negb_true_iff in Ha.
    destruct (dispatch_step a b Ha H) as [[H1 _] H2]. auto.
  - reflexivity.
Qed.

Lemma Convert_total (c : Converter) : Convert c <> OutOfFuel.
Proof.
  unfold Convert. apply bind_fuel; [apply Convert_loop_total | discriminate].
Qed.

Lemma SXMD_total (input : list byte) : SXMD input <> OutOfFuel.
Proof. apply Convert_total. Qed.

(** ** Conversions of given documents *)

(** C5: the nested block [\begin{a}\begin{b}body\end{b}\end{a}] is wrapped
    once, as a whole, in [<!--] and [-->]. *)
Theorem nested_block_wrapped_once :
  SXMD (bytes "\begin{a}\begin{b}body\end{b}\end{a}")
  = Ok (bytes "<!--\begin{a}\begin{b}body\end{b}\end{a}-->").
Proof. vm_compute. reflexivity. Qed.

(** C6: a well-terminated HTML comment is copied as it is, the block opener
    and the math delimiters inside it included. *)
Theorem comment_copied_verbatim :
  SXMD (bytes "<!-- \begin{a} $x$ -->") = Ok (bytes "<!-- \begin{a} $x$ -->").
Proof. vm_compute. reflexivity. Qed.

(** C7: a CDATA section is removed with its markers; the text around it
    stays. *)
Theorem cdata_removed :
  SXMD (bytes "before<![CDATA[anything $ \foo ]]>after") = Ok (bytes "beforeafter").
Proof. vm_compute. reflexivity. Qed.

(** C2, as the program behaves: on [\\begin{a}] the first backslash is
    copied, but the round that follows starts on the second backslash, whose
    next rune is [b]: the block rewriter is entered there, emits [<!--],
    copies the rest and reaches end of input without emitting [-->]. *)
Theorem double_backslash_begin_rewritten :
  SXMD (bytes "\\begin{a}") = Ok (bytes "\<!--\begin{a}") /\
  SXMD (bytes "\\begin{a}") <> Ok (bytes "\\begin{a}").
Proof. split; vm_compute; [reflexivity | discriminate]. Qed.

(** C1, as the program behaves: [next] and [lookahead] read past the end
    of the input without a test, and the conversion panics on a document
    that ends in a backslash or in [$], on a [<] among its last eight runes,
    and on the partial openers [<!--] and [<![CDATA]. *)
Theorem conversion_panics :
  SXMD (bytes "\") = Panic /\
  SXMD (bytes "$") = Panic /\
  SXMD (bytes "<") = Panic /\
  SXMD (bytes "a < b") = Panic /\
  SXMD (bytes "<!--") = Panic /\
  SXMD (bytes "<![CDATA") = Panic.
Proof. repeat split; vm_compute; reflexivity. Qed.

(** C8, as the program behaves: on [<!--] the copy loop reaches the first
    [-] with one rune left, and [lookahead(2)] panics before end of input is
    reached. *)
Theorem unterminated_comment_panics :
  handleComments (ByteArrayToConverter (bytes "<!--")) = Panic.
Proof. vm_compute. reflexivity. Qed.

(** C10, as the program behaves: on [\begin{a}\b] the block rewriter is
    entered with the counter at 1, and panics in [lookahead(5)] on the
    second backslash, which has one rune after it. *)
Theorem unterminated_block_panics :
  handleLatex (ByteArrayToConverter (bytes "\begin{a}\b")) = Panic /\
  handleLatexBlock (ByteArrayToConverter (bytes "\begin{a}\b")) = Panic.
Proof. split; vm_compute; reflexivity. Qed.

(** ** Cursor monotonicity *)

(** C9: a round of the conversion loop that completes leaves the cursor
    strictly further than it found it, and neither a recognizer nor the
    copy of one rune ever moves the cursor back. *)
Theorem cursor_monotonicity (c c' : Converter) :
  atEof c = false -> dispatch c = Ok c' ->
  cursor c < cursor c' /\
  (forall h a b a1, recognize h a = Ok (b, a1) -> cursor a <= cursor a1) /\
  (forall a a1, copyCurrent a = Ok a1 -> cursor a <= cursor a1).
Proof.
  intros He H. split; [now apply dispatch_step in H|]. split.
  - intros h a b a1 Hr. destruct h; simpl in Hr.
    + destruct b.
      * apply handleComments_true in Hr. lia.
      * apply handleComments_false in Hr. subst. lia.
    + destruct b.
      * apply handleCDATA_true in Hr. lia.
      * apply handleCDATA_false in Hr. subst. lia.
    + destruct b.
      * apply handleInlineMath_true in Hr as (_ & _ & ->). simpl. lia.
      * apply handleInlineMath_false in Hr as (m & -> & _). simpl. lia.
    + apply handleLatex_forward in Hr as (_ & _ & Hr). exact Hr.
  - intros a a1 Ha. apply copyCurrent_forward in Ha as [_ Ha]. lia.
Qed.

Lemma cursor_monotonicity_witness :
  exists c',
    dispatch (ByteArrayToConverter (bytes "\alpha{x}{y} done")) = Ok c' /\
    cursor (ByteArrayToConverter (bytes "\alpha{x}{y} done")) < cursor c'.
Proof.
  eexists. split; [vm_compute; reflexivity|].
  apply (cursor_monotonicity (ByteArrayToConverter (bytes "\alpha{x}{y} done")));
    vm_compute; reflexivity.
Defined.

(** ** The inline-math flag *)

Lemma skip_not_opener (c : Converter) (r x : rune) (m : result bool) :
  current c = Ok r -> r <> x ->
  orR (neRune (current c) x) m = Ok true.
Proof.
  intros Hc Hr. unfold orR, neRune. rewrite Hc. simpl.
  apply Z.eqb_neq in Hr. now rewrite Hr.
Qed.

(** On a rune other than [<] neither the comment nor the CDATA recognizer
    claims the cursor. *)
Lemma handleComments_other (c : Converter) (r : rune) :
  current c = Ok r -> r <> rune_of "<" -> handleComments c = Ok (false, c).
Proof.
  intros Hc Hr. unfold handleComments.
  now rewrite (skip_not_opener c r _ _ Hc Hr).
Qed.

Lemma handleCDATA_other (c : Converter) (r : rune) :
  current c = Ok r -> r <> rune_of "<" -> handleCDATA c = Ok (false, c).
Proof.
  intros Hc Hr. unfold handleCDATA.
  now rewrite (skip_not_opener c r _ _ Hc Hr).
Qed.

(** With the flag false, [handleInlineMath] sets it exactly on a [$] that
    is not the first rune and follows a space. *)
Lemma handleInlineMath_opens (c c' : Converter) :
  inInlineMath c = false -> handleInlineMath c = Ok (false, c') ->
  (inInlineMath c' = true <->
   current c = Ok (rune_of "$") /\ 0 < cursor c /\ prev c = Ok (rune_of " ")).
Proof.
  intros Hm. unfold handleInlineMath. intros H.
  apply bind_Ok in H as ([|] & He & H); [discriminate|].
  apply bind_Ok in H as ([|] & Hd & H).
  { injection H as <-. split; [congruence|]. intros (Hc & _).
    unfold neRune in Hd. rewrite Hc in Hd. discriminate. }
  apply neRune_false in Hd.
  apply bind_Ok in H as ([|] & Ho & H).
  { injection H as <-. simpl. split; [|reflexivity]. intros _.
    apply andR_true in Ho as [H0 Ho]. apply andR_true in Ho as [Hp _].
    apply eqRune_true in Hp. injection H0 as H0.
    repeat split; [exact Hd | lia | exact Hp]. }
  assert (Hno : ~ (0 < cursor c /\ prev c = Ok (rune_of " "))).
  { intros [H0 Hp]. unfold andR, at_ in Ho. unfold prev in Hp.
    rewrite Hp, Hm in Ho. simpl in Ho.
    destruct (cursor c >? 0) eqn:E; [discriminate | lia]. }
  rewrite Hm in H. apply bind_Ok in H as ([|] & Hc & H).
  { apply andR_true in Hc as [_ Hc]. discriminate. }
  injection H as <-. split; [congruence | tauto].
Qed.

Lemma handleLatex_not_backslash (c : Converter) (r : rune) :
  current c = Ok r -> r <> rune_of "\" -> handleLatex c = Ok (false, c).
Proof.
  intros Hc Hr. unfold handleLatex, andR, eqRune. rewrite Hc. simpl.
  apply Z.eqb_neq in Hr. rewrite Hr. now destruct (inInlineMath c).
Qed.

Lemma setInInlineMath_same (c : Converter) (b : bool) :
  inInlineMath c = b -> setInInlineMath b c = c.
Proof. intros <-. now destruct c. Qed.

(** A [$] whose next rune exists: [handleInlineMath] returns without a
    panic, and sets the flag as its two tests say. *)
Lemma handleInlineMath_dollar (c : Converter) (r : rune) :
  current c = Ok (rune_of "$") -> next c = Ok r ->
  exists b,
    handleInlineMath c = Ok (false, setInInlineMath b c) /\
    (inInlineMath c = false ->
     (b = true <-> 0 < cursor c /\ prev c = Ok (rune_of " "))) /\
    (inInlineMath c = true -> b = negb (r =? rune_of " ")).
Proof.
  intros Hc Hn.
  pose proof Hc as Hc'. pose proof Hn as Hn'.
  unfold current in Hc'. apply index_Ok in Hc' as [Hr Hc'].
  unfold next in Hn'. apply index_Ok in Hn' as [Hr' Hn'].
  assert (Hl : lookahead 1 c = Ok [r]).
  { unfold lookahead. apply slice_Ok. split; [lia|].
    replace (cursor c + 1 + 1 - (cursor c + 1)) with 1 by lia.
    apply nth_error_split in Hn' as (l1 & l2 & Hs & Hlen).
    rewrite Hs, <- Hlen, skipn_app, skipn_all, Nat.sub_diag. reflexivity. }
  unfold handleInlineMath. rewrite Hc, Hn, Hl.
  destruct (inInlineMath c) eqn:Em.
  - (* in math mode: only a following space matters *)
    exists (negb (r =? rune_of " ")).
    split; [|split; [discriminate | reflexivity]].
    assert (Ho : andR (Ok (cursor c >? 0))
                   (andR (eqRune (at_ c (cursor c - 1)) (rune_of " "))
                         (Ok (negb true))) = Ok false).
    { destruct (cursor c >? 0) eqn:E0; [|reflexivity].
      destruct (index_in_range (in_ c) (cursor c - 1)) as (p & Hp); [lia|].
      unfold at_. rewrite Hp. simpl. now destruct (p =? rune_of " "). }
    rewrite Ho. simpl.
    destruct (r =? rune_of " "); simpl; [reflexivity|].
    now rewrite setInInlineMath_same.
  - (* in text mode: only a preceding space matters *)
    simpl. destruct (cursor c >? 0) eqn:E0; simpl.
    + destruct (index_in_range (in_ c) (cursor c - 1)) as (p & Hp); [lia|].
      unfold at_, prev. rewrite Hp. simpl.
      destruct (p =? rune_of " ") eqn:Ep; simpl.
      * apply Z.eqb_eq in Ep. subst p. exists true.
        split; [reflexivity|]. split; [|discriminate].
        intros _. split; [intros _; split; [lia | reflexivity] | reflexivity].
      * apply Z.eqb_neq in Ep. exists false.
        split; [destruct (r =? rune_of " "); simpl; now rewrite setInInlineMath_same|].
        split; [|discriminate].
        intros _. split; [discriminate|]. intros [_ H]. injection H as H.
        contradiction.
    + exists false.
      split; [destruct (r =? rune_of " "); simpl; now rewrite setInInlineMath_same|].
      split; [|discriminate].
      intros _. split; [discriminate | lia].
Qed.

(** C3, as the program decides it.  With the flag false, a round of the
    conversion loop sets the flag only on a [$] that is not the first rune
    of the input and whose preceding rune is the space U+0020; and on a [$]
    followed by a rune that is not white space the round completes, copies
    the [$], and sets the flag exactly under that condition.  A [$] at
    position 0, or after a tab or a newline, leaves the flag false. *)
Theorem math_mode_opening (c : Converter) :
  inInlineMath c = false ->
  (forall c', dispatch c = Ok c' -> inInlineMath c' = true ->
     current c = Ok (rune_of "$") /\ 0 < cursor c /\
     prev c = Ok (rune_of " ")) /\
  (forall r, current c = Ok (rune_of "$") -> next c = Ok r ->
     IsSpace r = false ->
     exists c', dispatch c = Ok c' /\
       cursor c' = cursor c + 1 /\ out c' = out c ++ [rune_of "$"] /\
       (inInlineMath c' = true <->
        0 < cursor c /\ prev c = Ok (rune_of " "))).
Proof.
  intros Hm. split.
  - intros c' H Hm'. apply dispatch_round in H.
    destruct H as [H1|H1 H2|H1 H2 H3|b H1 H2 H3 H4|b H1 H2 H3 H4 H5].
    + apply handleComments_true in H1 as [(_ & H1 & _) _]. congruence.
    + apply handleCDATA_true in H2 as [(_ & H2 & _) _]. congruence.
    + apply handleInlineMath_true in H3 as (_ & _ & ->). simpl in Hm'. congruence.
    + apply handleLatex_forward in H4 as (_ & H4 & _). simpl in H4.
      apply (handleInlineMath_opens c _ Hm H3). simpl. congruence.
    + apply copyCurrent_forward in H5 as [(_ & H5 & _) _]. simpl in H5.
      apply (handleInlineMath_opens c _ Hm H3). simpl. congruence.
  - intros r Hc Hn _.
    destruct (handleInlineMath_dollar c r Hc Hn) as (b & Hb & Hopen & _).
    exists (advance 1 (emitRune (rune_of "$") (setInInlineMath b c))).
    split; [|split; [reflexivity | split; [reflexivity|]]].
    + apply dispatch_round. apply round_copy with b.
      * apply handleComments_other with (rune_of "$"); [exact Hc | discriminate].
      * apply handleCDATA_other with (rune_of "$"); [exact Hc | discriminate].
      * exact Hb.
      * apply handleLatex_not_backslash with (rune_of "$"); [exact Hc | discriminate].
      * unfold copyCurrent. change (current (setInInlineMath b c)) with (current c).
        now rewrite Hc.
    + simpl. rewrite <- (Hopen Hm). split; intros H; exact H.
Qed.

Lemma math_mode_opening_witness :
  exists c',
    dispatch (mkConverter 8 5 false (runes "is a $x$") (bytes "is a ")) = Ok c' /\
    inInlineMath c' = true.
Proof.
  destruct (proj2 (math_mode_opening
                     (mkConverter 8 5 false (runes "is a $x$") (bytes "is a "))
                     eq_refl) (rune_of "x") eq_refl eq_refl eq_refl)
    as (c' & Hd & _ & _ & Hiff).
  exists c'. split; [exact Hd|]. apply Hiff. split; [reflexivity | reflexivity].
Defined.

(** C3 as stated fails: a [$] that opens the input and is followed by a
    rune that is not white space leaves the flag false, and so does a [$]
    that follows a tab; the command after [$x] is rewritten, which it
    would not be in math mode. *)
Lemma dollar_at_start_opens_no_math :
  (exists c', dispatch (ByteArrayToConverter (bytes "$x")) = Ok c' /\
              cursor c' = 1 /\ inInlineMath c' = false) /\
  (exists c', dispatch (mkConverter 3 1 false [9; rune_of "$"; rune_of "x"] [9])
              = Ok c' /\ cursor c' = 2 /\ inInlineMath c' = false) /\
  SXMD (bytes "$x \alpha{y} z") = Ok (bytes "$x <!--\alpha{y}--> z").
Proof.
  split; [|split].
  - eexists. split; [vm_compute; reflexivity|]. split; reflexivity.
  - eexists. split; [vm_compute; reflexivity|]. split; reflexivity.
  - vm_compute. reflexivity.
Qed.

(** ** Inside an inline-math span *)

Lemma firstn_add_skipn {A : Type} (n m : nat) (l : list A) :
  firstn (n + m) l = firstn n l ++ firstn m (skipn n l).
Proof.
  revert l. induction n as [|n IH]; intros l; [reflexivity|].
  destruct l as [|x l]; simpl.
  - now rewrite firstn_nil.
  - now rewrite IH.
Qed.

Lemma span_split (s : list rune) (a b d : Z) :
  0 <= a <= b -> b <= d -> span s a d = span s a b ++ span s b d.
Proof.
  intros Hab Hbd. unfold span.
  replace (Z.to_nat (d - a)) with (Z.to_nat (b - a) + Z.to_nat (d - b))%nat by lia.
  rewrite firstn_add_skipn, skipn_skipn.
  replace (Z.to_nat (b - a) + Z.to_nat a)%nat with (Z.to_nat b) by lia.
  reflexivity.
Qed.

Lemma span_empty (s : list rune) (a : Z) : span s a a = [].
Proof. unfold span. now rewrite Z.sub_diag. Qed.

Lemma span_one (s : list rune) (a : Z) (r : rune) :
  index s a = Ok r -> span s a (a + 1) = [r].
Proof.
  intros H. apply index_Ok in H as [Ha H]. unfold span.
  replace (a + 1 - a) with 1 by lia.
  apply nth_error_split in H as (l1 & l2 & -> & Hl).
  rewrite <- Hl, skipn_app, skipn_all, Nat.sub_diag. reflexivity.
Qed.

Lemma span_two (s : list rune) (a : Z) (r n : rune) :
  index s a = Ok r -> index s (a + 1) = Ok n -> span s a (a + 2) = [r; n].
Proof.
  intros Hr Hn. pose proof Hr as Ha. apply index_Ok in Ha as [Ha _].
  rewrite (span_split s a (a + 1) (a + 2)) by lia.
  rewrite (span_one _ _ _ Hr). replace (a + 2) with (a + 1 + 1) by lia.
  now rewrite (span_one _ _ _ Hn).
Qed.

Lemma encode_app (s t : list rune) : encode (s ++ t) = encode s ++ encode t.
Proof. unfold encode. apply flat_map_app. Qed.

Lemma handleLatex_in_math (c : Converter) :
  inInlineMath c = true -> handleLatex c = Ok (false, c).
Proof. intros H. unfold handleLatex. now rewrite H. Qed.

(** In math mode, a round that starts on a rune other than [<] copies
    what it consumes: the pair [\$], or the one rune under the cursor. *)
Lemma math_round (c : Converter) (r n : rune) :
  inInlineMath c = true -> current c = Ok r -> next c = Ok n ->
  r <> rune_of "<" -> (r = rune_of "$" -> n <> rune_of " ") ->
  exists c',
    dispatch c = Ok c' /\ inInlineMath c' = true /\ sameInput c c' /\
    cursor c < cursor c' <= cursor c + 2 /\
    (cursor c' = cursor c + 2 -> r = rune_of "\" /\ n = rune_of "$") /\
    out c' = out c ++ encode (span (in_ c) (cursor c) (cursor c')).
Proof.
  intros Hm Hc Hn Hlt Hsp.
  assert (H1 : handleComments c = Ok (false, c))
    by (now apply handleComments_other with r).
  assert (H2 : handleCDATA c = Ok (false, c))
    by (now apply handleCDATA_other with r).
  assert (Hcopy : handleInlineMath c = Ok (false, c) ->
                  dispatch c = Ok (advance 1 (emitRune r c))).
  { intros Hi. apply dispatch_round. apply round_copy with true;
      rewrite ?(setInInlineMath_same c true Hm);
      [exact H1 | exact H2 | exact Hi | now apply handleLatex_in_math |].
    unfold copyCurrent. now rewrite Hc. }
  assert (Hone : out c ++ encodeRune r
                 = out c ++ encode (span (in_ c) (cursor c) (cursor c + 1))).
  { unfold current in Hc. rewrite (span_one _ _ _ Hc). simpl.
    now rewrite app_nil_r. }
  destruct (Z.eq_dec r (rune_of "\")) as [Hb|Hb];
    [destruct (Z.eq_dec n (rune_of "$")) as [Hd|Hd]|].
  - (* the escape \$ *)
    subst r n. exists (advance 2 (emit (runes "\$") c)).
    split; [|split; [exact Hm | split; [split; reflexivity|]]].
    + apply dispatch_round, round_escape; [exact H1 | exact H2 |].
      unfold handleInlineMath. now rewrite Hc, Hn.
    + simpl. split; [lia|]. split; [auto|].
      unfold current in Hc. unfold next in Hn.
      now rewrite (span_two _ _ _ _ Hc Hn).
  - (* a backslash that escapes nothing *)
    exists (advance 1 (emitRune r c)).
    split; [|split; [exact Hm | split; [split; reflexivity|]]].
    + apply Hcopy. subst r.
      unfold handleInlineMath, andR, eqRune, neRune. rewrite Hc, Hn. simpl.
      apply Z.eqb_neq in Hd. now rewrite Hd.
    + simpl. split; [lia|]. split; [lia | exact Hone].
  - exists (advance 1 (emitRune r c)).
    split; [|split; [exact Hm | split; [split; reflexivity|]]].
    + apply Hcopy.
      destruct (Z.eq_dec r (rune_of "$")) as [Hd|Hd].
      * (* a dollar that does not close the span *)
        subst r.
        destruct (handleInlineMath_dollar c n Hc Hn) as (b & Hi & _ & Hb').
        specialize (Hb' Hm). specialize (Hsp eq_refl).
        apply Z.eqb_neq in Hsp. rewrite Hsp in Hb'. simpl in Hb'. subst b.
        now rewrite (setInInlineMath_same c true Hm) in Hi.
      * (* any other rune *)
        unfold handleInlineMath, andR, eqRune, neRune. rewrite Hc. simpl.
        apply Z.eqb_neq in Hb, Hd. now rewrite Hb, Hd.
    + simpl. split; [lia|]. split; [lia | exact Hone].
Qed.

Lemma while_more_fuel (cond : Converter -> result bool)
    (body : Converter -> result Converter) (fuel : nat) :
  forall (c : Converter) (fuel' : nat),
  pure (while fuel cond body c) -> (fuel <= fuel')%nat ->
  while fuel' cond body c = while fuel cond body c.
Proof.
  induction fuel as [|fuel IH]; intros c fuel' Hp Hf.
  - unfold pure in Hp. simpl in Hp.
    destruct fuel'; simpl; [reflexivity|].
    destruct (cond c) as [[|]| |]; simpl in *; try reflexivity. now elim Hp.
  - destruct fuel' as [|fuel']; [lia|]. simpl in *.
    destruct (cond c) as [[|]| |]; simpl in *; try reflexivity.
    destruct (body c) as [c1| |]; simpl in *; try reflexivity.
    apply IH; [exact Hp | lia].
Qed.

(** The rounds are those of [Convert]: the conversion of a converter is
    the conversion of any converter its rounds lead to. *)
Lemma rounds_Convert (c c' : Converter) : rounds c c' -> Convert c = Convert c'.
Proof.
  induction 1 as [c|c c1 c' He Hd Hr IH]; [reflexivity|].
  rewrite <- IH. unfold Convert, Convert_loop. f_equal.
  destruct (remaining_S c He) as (n & Hn). rewrite Hn.
  rewrite while_enter by (now rewrite He).
  rewrite Hd. simpl.
  apply while_more_fuel; [apply Convert_loop_total|].
  destruct (dispatch_step c c1 He Hd) as [[H1 _] H2].
  pose proof (remaining_less c c1 He H1 H2). lia.
Qed.

(** Over the rounds of the conversion loop the cursor only grows, and it
    grows as soon as one round has run. *)
Lemma rounds_cursor (c c' : Converter) :
  rounds c c' -> c' = c \/ cursor c < cursor c'.
Proof.
  induction 1 as [c|c c1 c' He Hd Hr IH]; [now left|]. right.
  destruct (dispatch_step c c1 He Hd) as [_ H1].
  destruct IH as [->|IH]; lia.
Qed.

Lemma math_span_rounds (k : nat) :
  forall (c : Converter) (j : Z),
  wf c -> inInlineMath c = true -> j < len (in_ c) -> cursor c <= j + 1 ->
  (Z.to_nat (j - cursor c) <= k)%nat ->
  (forall p r, cursor c <= p < j -> index (in_ c) p = Ok r ->
     r <> rune_of "<" /\
     (r = rune_of "$" -> index (in_ c) (p + 1) <> Ok (rune_of " "))) ->
  exists c',
    rounds c c' /\ inInlineMath c' = true /\ sameInput c c' /\
    Z.max j (cursor c) <= cursor c' <= j + 1 /\
    (cursor c' = j + 1 ->
     cursor c = j + 1 \/
     (index (in_ c) (j - 1) = Ok (rune_of "\") /\
      index (in_ c) j = Ok (rune_of "$"))) /\
    out c' = out c ++ encode (span (in_ c) (cursor c) (cursor c')).
Proof.
  induction k as [|k IH]; intros c j [Hlen Hpos] Hm Hj Hc Hk Hspan;
    destruct (Z_lt_le_dec (cursor c) j) as [Hlt|Hge]; try lia;
    try (exists c; repeat split;
         [apply rounds_refl | exact Hm | lia | lia | lia
         | now rewrite span_empty, app_nil_r]).
  destruct (index_in_range (in_ c) (cursor c)) as (r & Hr); [lia|].
  destruct (index_in_range (in_ c) (cursor c + 1)) as (n & Hn); [lia|].
  destruct (Hspan (cursor c) r) as [Hr1 Hr2]; [lia | exact Hr |].
  destruct (math_round c r n Hm Hr Hn Hr1) as
    (c1 & Hd & Hm1 & [Hs1 Hs2] & Hc1 & Hesc & Ho1).
  { intros E Hsp. apply (Hr2 E). now subst n. }
  destruct (IH c1 j) as (c' & Hrs & Hm' & [Hs1' Hs2'] & Hc' & Hesc' & Ho');
    try assumption; try lia.
  - split; [congruence | lia].
  - congruence.
  - intros p q Hp Hq. rewrite Hs2 in *. apply Hspan; [lia | exact Hq].
  - exists c'. split; [|split; [exact Hm' | split; [split; congruence|]]].
    + apply rounds_step with c1; [apply atEof_false; lia | exact Hd | exact Hrs].
    + split; [lia|]. split.
      * intros E. right. destruct (Hesc' E) as [E1|E1].
        -- assert (E2 : cursor c1 = cursor c + 2) by lia.
           destruct (Hesc E2) as [-> ->].
           replace (j - 1) with (cursor c) by lia.
           replace j with (cursor c + 1) by lia. auto.
        -- now rewrite Hs2 in E1.
      * rewrite Ho', Ho1, Hs2, <- app_assoc, <- encode_app.
        now rewrite <- span_split by lia.
Qed.

(** Read with the flag true, a span of the input in which no rune is [<]
    and no [$] is followed by a space is copied to the output rune for
    rune, with the flag still true after it; the rounds end on the first
    position after the span, or one further when the span ends in a
    backslash that escapes a [$]. *)
Lemma math_span_verbatim (c : Converter) (j : Z) :
  wf c -> inInlineMath c = true -> cursor c <= j < len (in_ c) ->
  (forall p r, cursor c <= p < j -> index (in_ c) p = Ok r ->
     r <> rune_of "<" /\
     (r = rune_of "$" -> index (in_ c) (p + 1) <> Ok (rune_of " "))) ->
  exists c',
    rounds c c' /\ Convert c = Convert c' /\
    inInlineMath c' = true /\ in_ c' = in_ c /\
    j <= cursor c' <= j + 1 /\
    (cursor c' = j + 1 ->
     index (in_ c) (j - 1) = Ok (rune_of "\") /\
     index (in_ c) j = Ok (rune_of "$")) /\
    out c' = out c ++ encode (span (in_ c) (cursor c) (cursor c')).
Proof.
  intros Hwf Hm [Hc Hj] Hspan.
  destruct (math_span_rounds (Z.to_nat (j - cursor c)) c j)
    as (c' & Hr & Hm' & [_ Hs] & Hc' & Hesc & Ho); try assumption; try lia.
  exists c'. repeat split; try assumption; try lia.
  - now apply rounds_Convert.
  - destruct (Hesc H) as [E|[E _]]; [lia | exact E].
  - destruct (Hesc H) as [E|[_ E]]; [lia | exact E].
Qed.

(** What a copy loop has written is what it has moved over. *)
Lemma copy_while_out (cond : Converter -> result bool) (fuel : nat)
    (c c' : Converter) :
  0 <= cursor c -> while fuel cond copyCurrent c = Ok c' ->
  out c' = out c ++ encode (span (in_ c) (cursor c) (cursor c')).
Proof.
  intros Hp H.
  apply (while_Ok (fun a b =>
           forward a b /\
           (0 <= cursor a ->
            out b = out a ++ encode (span (in_ a) (cursor a) (cursor b)))))
    in H; [now apply H | | |].
  - intros a. split; [apply forward_refl|]. intros _.
    now rewrite span_empty, app_nil_r.
  - intros x y z [F1 O1] [F2 O2]. split; [eapply forward_trans; eauto|].
    intros Hx. destruct F1 as ([_ I1] & _ & C1). destruct F2 as (_ & _ & C2).
    rewrite O2, O1, I1, <- app_assoc, <- encode_app by lia.
    now rewrite <- span_split by lia.
  - intros a b _ Hb. pose proof Hb as Hf.
    apply copyCurrent_forward in Hf as [Hf Hc]. split; [exact Hf|].
    intros Ha. apply copyCurrent_Ok in Hb as (r & Hr & ->). simpl.
    unfold current in Hr. rewrite (span_one _ _ _ Hr). simpl.
    now rewrite app_nil_r.
Qed.

Lemma span_three (s : list rune) (a : Z) (r : rune) (l : list rune) :
  index s a = Ok r -> slice s (a + 1) (a + 1 + 2) = Ok l ->
  span s a (a + 3) = r :: l.
Proof.
  intros Hr Hl. pose proof Hr as Ha. apply index_Ok in Ha as [Ha _].
  apply slice_Ok in Hl as [Hb ->].
  rewrite (span_split s a (a + 1) (a + 3)) by lia.
  rewrite (span_one _ _ _ Hr). unfold span.
  replace (a + 3 - (a + 1)) with (a + 1 + 2 - (a + 1)) by lia. reflexivity.
Qed.

(** A comment that [handleComments] leaves inside the input was ended by
    [-->], and has been copied as it is. *)
Lemma handleComments_verbatim (c c' : Converter) :
  0 <= cursor c -> handleComments c = Ok (true, c') ->
  cursor c' <= inputLength c ->
  out c' = out c ++ encode (span (in_ c) (cursor c) (cursor c')).
Proof.
  intros Hp H Hin. unfold handleComments in H.
  apply bind_Ok in H as ([|] & _ & H); [discriminate|].
  apply bind_Ok in H as (c1 & H1 & H). injection H as <-. simpl in *.
  pose proof (copy_while_out _ _ _ _ Hp H1) as Ho.
  apply copy_while_forward in H1 as [([Hl Hi] & _ & Hc) Hstop].
  unfold commentCond in Hstop.
  assert (He : atEof c1 = false) by (apply atEof_false; lia).
  rewrite He in Hstop. simpl in Hstop.
  apply orR_false in Hstop as [Hd Ht].
  apply neRune_false in Hd. apply notR_false, eqRunes_true in Ht.
  unfold current in Hd. unfold lookahead in Ht. rewrite Hi in Hd, Ht.
  rewrite (span_split (in_ c) (cursor c) (cursor c1) (cursor c1 + 3)) by lia.
  rewrite (span_three _ _ _ _ Hd Ht), encode_app, app_assoc, <- Ho.
  reflexivity.
Qed.

(** In math mode the LaTeX recognizer declines, whatever
    [handleInlineMath] has made of the flag. *)
Lemma handleLatex_after_math (c : Converter) (b : bool) :
  inInlineMath c = true ->
  handleInlineMath c = Ok (false, setInInlineMath b c) ->
  handleLatex (setInInlineMath b c) = Ok (false, setInInlineMath b c).
Proof.
  intros Hm Hi. destruct b; [now apply handleLatex_in_math|].
  destruct (handleInlineMath_false _ _ Hi) as (b' & Hb & Hsame).
  assert (Hd : current c = Ok (rune_of "$")).
  { destruct (current c) as [r| |] eqn:Hc.
    - destruct (Z.eq_dec r (rune_of "$")) as [->|Hr]; [reflexivity|].
      assert (Hb' : b' = inInlineMath c) by (apply Hsame; congruence).
      apply (f_equal inInlineMath) in Hb. simpl in Hb. congruence.
    - assert (Hb' : b' = inInlineMath c) by (apply Hsame; discriminate).
      apply (f_equal inInlineMath) in Hb. simpl in Hb. congruence.
    - assert (Hb' : b' = inInlineMath c) by (apply Hsame; discriminate).
      apply (f_equal inInlineMath) in Hb. simpl in Hb. congruence. }
  apply handleLatex_not_backslash with (rune_of "$"); [exact Hd | discriminate].
Qed.

(** The CDATA recognizer claims the cursor only on its opener. *)
Lemma handleCDATA_claims_opener (c c' : Converter) :
  handleCDATA c = Ok (true, c') ->
  current c = Ok (rune_of "<") /\ lookahead 8 c = Ok (runes "![CDATA[").
Proof.
  unfold handleCDATA. intros H. apply bind_Ok in H as ([|] & Hs & H);
    [discriminate|].
  apply orR_false in Hs as [Hc Hl].
  apply neRune_false in Hc. apply notR_false, eqRunes_true in Hl. auto.
Qed.

(** In math mode, a round that completes inside the input and is not the
    CDATA recognizer's has written what it has moved over. *)
Lemma math_round_verbatim (c c' : Converter) :
  wf c -> inInlineMath c = true -> dispatch c = Ok c' ->
  handleCDATA c <> Ok (true, c') -> cursor c' <= inputLength c ->
  out c' = out c ++ encode (span (in_ c) (cursor c) (cursor c')).
Proof.
  intros [Hl Hp] Hm H Hcd Hin. apply dispatch_round in H.
  destruct H as [H1|H1 H2|H1 H2 H3|b H1 H2 H3 H4|b H1 H2 H3 H4 H5].
  - now apply handleComments_verbatim.
  - contradiction.
  - apply handleInlineMath_true in H3 as (Hc & Hn & ->). simpl.
    unfold current in Hc. unfold next in Hn.
    now rewrite (span_two _ _ _ _ Hc Hn).
  - rewrite (handleLatex_after_math c b Hm H3) in H4. discriminate.
  - apply copyCurrent_Ok in H5 as (r & Hr & ->). simpl.
    change (current (setInInlineMath b c)) with (current c) in Hr.
    unfold current in Hr. rewrite (span_one _ _ _ Hr). simpl.
    now rewrite app_nil_r.
Qed.

(** C4, as the program behaves.  With the flag true, a round of the
    conversion loop that completes inside the input writes the runes it
    moves over as they are - one rune, the pair [\$], or an HTML comment
    with its [-->] - unless it starts on a CDATA opener, that is on [<]
    followed by [![CDATA[], in which case it drops the section; the LaTeX
    recognizer declines.  The comment and CDATA recognizers are tried before
    the flag is looked at, also inside a math span.  A span in which no rune
    is [<] and no [$] is followed by a space is so copied rune for rune, the
    flag staying true. *)
Theorem math_mode_copies (c : Converter) :
  wf c -> inInlineMath c = true ->
  (forall c', dispatch c = Ok c' ->
     ~ (current c = Ok (rune_of "<") /\
        lookahead 8 c = Ok (runes "![CDATA[")) ->
     cursor c' <= inputLength c ->
     out c' = out c ++ encode (span (in_ c) (cursor c) (cursor c'))) /\
  (forall b, handleInlineMath c = Ok (false, setInInlineMath b c) ->
     handleLatex (setInInlineMath b c) = Ok (false, setInInlineMath b c)) /\
  (forall j, cursor c <= j < len (in_ c) ->
     (forall p r, cursor c <= p < j -> index (in_ c) p = Ok r ->
        r <> rune_of "<" /\
        (r = rune_of "$" -> index (in_ c) (p + 1) <> Ok (rune_of " "))) ->
     exists c',
       rounds c c' /\ Convert c = Convert c' /\
       inInlineMath c' = true /\ in_ c' = in_ c /\
       j <= cursor c' <= j + 1 /\
       (cursor c' = j + 1 ->
        index (in_ c) (j - 1) = Ok (rune_of "\") /\
        index (in_ c) j = Ok (rune_of "$")) /\
       out c' = out c ++ encode (span (in_ c) (cursor c) (cursor c'))).
Proof.
  intros Hwf Hm. split; [|split].
  - intros c' H Hno Hin. apply math_round_verbatim; try assumption.
    intros Hcd. apply Hno. now apply handleCDATA_claims_opener with c'.
  - intros b. now apply handleLatex_after_math.
  - intros j Hj Hspan. now apply math_span_verbatim.
Qed.

Lemma math_mode_copies_witness :
  (exists c',
     rounds (mkConverter 9 2 true (runes " $x\$y$ z") (bytes " $")) c' /\
     cursor c' = 6 /\ out c' = bytes " $x\$y") /\
  out (mkConverter 11 11 true (runes " $a<!--x-->") (bytes " $a<!--x-->"))
  = out (mkConverter 11 3 true (runes " $a<!--x-->") (bytes " $a"))
    ++ encode (span (runes " $a<!--x-->") 3 11).
Proof.
  split.
  - destruct (proj2 (proj2 (math_mode_copies
                (mkConverter 9 2 true (runes " $x\$y$ z") (bytes " $"))
                (conj eq_refl (Z.lt_le_incl 0 2 eq_refl))
                eq_refl)) 6)
      as (c' & Hr & _ & _ & _ & Hc & Hesc & Ho).
    + simpl. unfold len. simpl. lia.
    + intros p r Hp Hi. simpl in Hp.
      assert (Hcase : p = 2 \/ p = 3 \/ p = 4 \/ p = 5) by lia.
      destruct Hcase as [-> | [-> | [-> | ->]]]; vm_compute in Hi;
        injection Hi as <-;
        (split; [discriminate
                | intros E; try discriminate E; vm_compute; discriminate]).
    + exists c'. split; [exact Hr|].
      assert (E : cursor c' = 6).
      { destruct (Z.eq_dec (cursor c') 7) as [E|E]; [|lia].
        destruct (Hesc E) as [H _]. vm_compute in H. discriminate H. }
      split; [exact E|]. rewrite Ho, E. vm_compute. reflexivity.
  - apply (proj1 (math_mode_copies
                    (mkConverter 11 3 true (runes " $a<!--x-->") (bytes " $a"))
                    (conj eq_refl (Z.lt_le_incl 0 3 eq_refl))
                    eq_refl)
             (mkConverter 11 11 true (runes " $a<!--x-->") (bytes " $a<!--x-->"))).
    + vm_compute. reflexivity.
    + intros [_ H]. vm_compute in H. discriminate H.
    + simpl. lia.
Defined.

(** C4 as stated fails on a CDATA section, and on an unterminated comment,
    inside a math span.  In [ $a<![CDATA[b]]>c$ ] the flag is true when the
    cursor reaches [<]; the round that starts there is the CDATA recognizer's
    and emits nothing.  In [ $a<!--b$ c] the comment recognizer copies to
    the end of input and appends [-->]. *)
Lemma cdata_in_math_span_dropped :
  (exists c3 c4,
     rounds (ByteArrayToConverter (bytes " $a<![CDATA[b]]>c$ ")) c3 /\
     inInlineMath c3 = true /\ cursor c3 = 3 /\
     dispatch c3 = Ok c4 /\ cursor c4 = 16 /\ out c4 = out c3) /\
  SXMD (bytes " $a<![CDATA[b]]>c$ ") = Ok (bytes " $ac$ ") /\
  SXMD (bytes " $a<!--b$ c") = Ok (bytes " $a<!--b$ c-->").
Proof.
  split; [|split; vm_compute; reflexivity].
  eexists. eexists. split.
  - eapply rounds_step; [reflexivity | vm_compute; reflexivity |].
    eapply rounds_step; [reflexivity | vm_compute; reflexivity |].
    eapply rounds_step; [reflexivity | vm_compute; reflexivity |].
    apply rounds_refl.
  - split; [reflexivity|]. split; [reflexivity|].
    split; [vm_compute; reflexivity|]. split; reflexivity.
Qed.

(** ** Running to the end of input *)

Lemma copiedToEof_atEof (c : Converter) : atEof c = true -> copiedToEof c = c.
Proof.
  unfold atEof. rewrite Z.geb_leb, Z.leb_le. intros H.
  unfold copiedToEof, span.
  replace (Z.to_nat (inputLength c - cursor c)) with 0%nat by lia.
  rewrite Z.max_l by lia. simpl. rewrite app_nil_r. now destruct c.
Qed.

Lemma copiedToEof_step (c : Converter) (r : rune) :
  wf c -> atEof c = false -> current c = Ok r ->
  copiedToEof (advance 1 (emitRune r c)) = copiedToEof c.
Proof.
  intros [Hl Hp] He Hc. apply atEof_false in He.
  unfold copiedToEof. simpl. f_equal; [lia|].
  rewrite (span_split (in_ c) (cursor c) (cursor c + 1) (inputLength c)) by lia.
  unfold current in Hc. rewrite (span_one _ _ _ Hc), encode_app, app_assoc.
  simpl. now rewrite app_nil_r.
Qed.

Lemma wf_copy (c : Converter) (r : rune) : wf c -> wf (advance 1 (emitRune r c)).
Proof. unfold wf. simpl. intros [H1 H2]. split; [exact H1 | lia]. Qed.

Lemma current_in_range (c : Converter) :
  wf c -> atEof c = false -> exists r, current c = Ok r.
Proof.
  intros [Hl Hp] He. apply atEof_false in He.
  apply index_in_range. lia.
Qed.

(** A copy loop whose condition holds at every position left runs to the
    end of input. *)
Lemma copy_to_eof (cond : Converter -> result bool) (fuel : nat) :
  forall c : Converter,
  wf c -> (remaining c <= fuel)%nat ->
  (forall a, atEof a = true -> cond a = Ok false) ->
  (forall a, sameInput c a -> cursor c <= cursor a < inputLength c ->
             cond a = Ok true) ->
  while fuel cond copyCurrent c = Ok (copiedToEof c).
Proof.
  induction fuel as [|fuel IH]; intros c Hwf Hf Hend Hgo;
    destruct (atEof c) eqn:He;
    try (simpl; rewrite (Hend c He); simpl; now rewrite copiedToEof_atEof);
    try (apply remaining_pos in He; lia).
  simpl. rewrite (Hgo c); [|split; reflexivity | apply atEof_false in He; lia].
  simpl. destruct (current_in_range c Hwf He) as (r & Hr).
  unfold copyCurrent. rewrite Hr. simpl.
  rewrite <- (copiedToEof_step c r Hwf He Hr). apply IH.
  - now apply wf_copy.
  - pose proof (remaining_less c (advance 1 (emitRune r c)) He eq_refl).
    simpl in H. lia.
  - exact Hend.
  - intros a [Ha1 Ha2] Ha. simpl in *. apply Hgo; [split; assumption | lia].
Qed.

(** X6: the comment recognizer on a comment that no [-->] ends, where every
    [-] from the cursor on has two runes after it: the rest of the input is
    copied, [-->] is appended all the same, and the cursor ends three
    positions past the end of input. *)
Lemma handleComments_unterminated (c : Converter) :
  wf c -> current c = Ok (rune_of "<") -> lookahead 3 c = Ok (runes "!--") ->
  (forall p, cursor c <= p < inputLength c ->
     index (in_ c) p = Ok (rune_of "-") ->
     exists l, slice (in_ c) (p + 1) (p + 3) = Ok l /\ l <> runes "->") ->
  exists c',
    handleComments c = Ok (true, c') /\
    cursor c' = inputLength c + 3 /\
    out c' = out c ++ encode (span (in_ c) (cursor c) (inputLength c))
                   ++ bytes "-->".
Proof.
  intros Hwf Hc Hl Hdash.
  exists (advance 3 (emit (runes "-->") (copiedToEof c))).
  assert (Hlt : cursor c < inputLength c).
  { destruct Hwf as [Hw _]. unfold current in Hc.
    apply index_Ok in Hc as [Hc _]. lia. }
  split; [|split].
  - unfold handleComments. rewrite Hc, Hl. simpl.
    rewrite (copy_to_eof commentCond (remaining c) c Hwf (le_n _)); [reflexivity | |].
    + intros a Ha. unfold commentCond. now rewrite Ha.
    + intros a [Ha1 Ha2] Ha. unfold commentCond.
      assert (He : atEof a = false) by (apply atEof_false; lia).
      rewrite He. simpl.
      destruct (index_in_range (in_ a) (cursor a)) as (r & Hr).
      { destruct Hwf as [Hw Hp]. rewrite Ha2. lia. }
      unfold orR, neRune, current. rewrite Hr. simpl.
      destruct (r =? rune_of "-") eqn:E; [|reflexivity]. simpl.
      apply Z.eqb_eq in E. subst r. rewrite Ha2 in Hr.
      destruct (Hdash (cursor a)) as (l & Hs & Hne); [lia | exact Hr |].
      unfold notR, eqRunes, lookahead. rewrite Ha2.
      replace (cursor a + 1 + 2) with (cursor a + 3) by lia.
      rewrite Hs. simpl.
      destruct (eq l (runes "->")) eqn:El; [|reflexivity].
      apply eq_spec in El. contradiction.
  - simpl. lia.
  - simpl. now rewrite <- app_assoc.
Qed.

Example handleComments_unterminated_run :
  handleComments (ByteArrayToConverter (bytes "<!-- open"))
  = Ok (true, mkConverter 9 12 false (runes "<!-- open") (bytes "<!-- open-->")).
Proof. vm_compute. reflexivity. Qed.

Lemma blockNesting_ext (n : Z) (a b : Converter) :
  in_ a = in_ b -> cursor a = cursor b -> blockNesting n a = blockNesting n b.
Proof.
  intros Hi Hc. unfold blockNesting, current, lookahead. now rewrite Hi, Hc.
Qed.

Lemma nestingAfter_ext (k : nat) :
  forall (n : Z) (a b : Converter),
  in_ a = in_ b -> cursor a = cursor b -> nestingAfter k n a = nestingAfter k n b.
Proof.
  induction k as [|k IH]; intros n a b Hi Hc; simpl; [reflexivity|].
  rewrite (blockNesting_ext n a b Hi Hc).
  destruct (blockNesting n b); simpl; try reflexivity.
  apply IH; simpl; congruence.
Qed.

Lemma blockLoop_to_eof (fuel : nat) :
  forall (n : Z) (c : Converter),
  wf c -> (remaining c <= fuel)%nat ->
  (forall k, (k < remaining c)%nat ->
     exists m, nestingAfter (S k) n c = Ok m /\ m <> 0) ->
  blockLoop fuel n c = Ok (copiedToEof c).
Proof.
  induction fuel as [|fuel IH]; intros n c Hwf Hf Hn;
    destruct (atEof c) eqn:He;
    try (simpl; rewrite He; now rewrite copiedToEof_atEof);
    try (apply remaining_pos in He; lia).
  simpl. rewrite He.
  destruct (Hn 0%nat) as (m & Hm & Hm0); [now apply remaining_pos|].
  simpl in Hm. apply bind_Ok in Hm as (m' & Hb & Hm). injection Hm as ->.
  rewrite Hb. simpl. apply Z.eqb_neq in Hm0. rewrite Hm0.
  destruct (current_in_range c Hwf He) as (r & Hr).
  unfold copyCurrent. rewrite Hr. simpl.
  rewrite <- (copiedToEof_step c r Hwf He Hr).
  pose proof (remaining_less c (advance 1 (emitRune r c)) He eq_refl) as Hless.
  simpl in Hless. apply IH.
  - now apply wf_copy.
  - lia.
  - intros k Hk. destruct (Hn (S k)) as (q & Hq & Hq0); [lia|].
    exists q. split; [|exact Hq0].
    change (nestingAfter (S (S k)) n c)
      with (n1 <- blockNesting n c ;; nestingAfter (S k) n1 (advance 1 c)) in Hq.
    rewrite Hb in Hq.
    change (nestingAfter (S k) m (advance 1 c) = Ok q) in Hq. rewrite <- Hq.
    apply nestingAfter_ext; reflexivity.
Qed.

(** X11: the block rewriter on a block whose counter is computed, and is not
    zero, at every position left: [<!--] is emitted, the rest of the input
    is copied, the cursor ends at the end of input and no [-->] is
    emitted. *)
Lemma handleLatexBlock_unterminated (c : Converter) :
  wf c ->
  (forall k, (k < remaining c)%nat ->
     exists m, nestingAfter (S k) 0 c = Ok m /\ m <> 0) ->
  exists c',
    handleLatexBlock c = Ok c' /\
    cursor c' = Z.max (cursor c) (inputLength c) /\
    out c' = out c ++ bytes "<!--"
                   ++ encode (span (in_ c) (cursor c) (inputLength c)).
Proof.
  intros Hwf Hn. exists (copiedToEof (emit (runes "<!--") c)).
  split; [|split].
  - unfold handleLatexBlock. apply blockLoop_to_eof.
    + exact Hwf.
    + apply le_n.
    + intros k Hk. destruct (Hn k Hk) as (m & Hm & Hm0).
      exists m. split; [|exact Hm0]. rewrite <- Hm.
      apply nestingAfter_ext; reflexivity.
  - reflexivity.
  - simpl. now rewrite <- app_assoc.
Qed.

Example handleLatexBlock_unterminated_run :
  handleLatexBlock (ByteArrayToConverter (bytes "\begin{a} some text"))
  = Ok (mkConverter 19 19 false (runes "\begin{a} some text")
          (bytes "<!--\begin{a} some text")).
Proof. vm_compute. reflexivity. Qed.

(** ** Windows on the input *)

Lemma span_length (s : list rune) (lo hi : Z) :
  0 <= lo <= hi -> hi <= len s -> len (span s lo hi) = hi - lo.
Proof.
  intros H1 H2. unfold span, len in *.
  rewrite length_firstn, length_skipn. lia.
Qed.

Lemma span_index (s : list rune) (lo hi i : Z) :
  0 <= lo <= hi -> hi <= len s -> 0 <= i < hi - lo ->
  index (span s lo hi) i = index s (lo + i).
Proof.
  intros H1 H2 Hi. unfold index.
  rewrite (span_length s lo hi H1 H2).
  replace ((0 <=? i) && (i <? hi - lo)) with true
    by (symmetry; apply andb_true_iff; split; [apply Z.leb_le | apply Z.ltb_lt]; lia).
  replace ((0 <=? lo + i) && (lo + i <? len s)) with true
    by (symmetry; apply andb_true_iff; split; [apply Z.leb_le | apply Z.ltb_lt]; lia).
  unfold span. rewrite nth_error_firstn.
  replace (Z.to_nat i <? Z.to_nat (hi - lo))%nat with true
    by (symmetry; apply Nat.ltb_lt; lia).
  rewrite nth_error_skipn.
  replace (Z.to_nat lo + Z.to_nat i)%nat with (Z.to_nat (lo + i)) by lia.
  reflexivity.
Qed.

Lemma slice_span (s : list rune) (lo hi : Z) (l : list rune) :
  slice s lo hi = Ok l -> l = span s lo hi /\ 0 <= lo <= hi /\ hi <= len s.
Proof. intros H. apply slice_Ok in H as [H ->]. split; [reflexivity | lia]. Qed.

Lemma slice_in_bounds (s : list rune) (lo hi : Z) :
  0 <= lo <= hi -> hi <= len s -> slice s lo hi = Ok (span s lo hi).
Proof. intros H1 H2. apply slice_Ok. split; [lia | reflexivity]. Qed.

Lemma slice_Panic (s : list rune) (lo hi : Z) :
  slice s lo hi = Panic <-> lo < 0 \/ hi < lo \/ len s < hi.
Proof.
  unfold slice.
  destruct (0 <=? lo) eqn:E1; destruct (lo <=? hi) eqn:E2;
    destruct (hi <=? len s) eqn:E3; simpl;
    split; intros H; try reflexivity; try discriminate; lia.
Qed.

(** The first rune of a window and the window that follows it. *)
Lemma slice_head (s : list rune) (p n : Z) (r : rune) (l : list rune) :
  0 <= n ->
  (slice s p (p + 1 + n) = Ok (r :: l) <->
   index s p = Ok r /\ slice s (p + 1) (p + 1 + n) = Ok l).
Proof.
  intros Hn. split.
  - intros H. apply slice_span in H as (H & Hp & Hh).
    destruct (index_in_range s p) as (x & Hx); [lia|].
    rewrite (span_split s p (p + 1) (p + 1 + n)) in H by lia.
    rewrite (span_one _ _ _ Hx) in H. simpl in H. injection H as -> ->.
    split; [exact Hx | apply slice_in_bounds; lia].
  - intros [Hx H]. apply slice_span in H as (-> & Hp & Hh).
    pose proof Hx as Hb. apply index_Ok in Hb as [Hb _].
    rewrite slice_in_bounds by lia.
    rewrite (span_split s p (p + 1) (p + 1 + n)) by lia.
    now rewrite (span_one _ _ _ Hx).
Qed.

(** X17: [lookahead(n)] panics exactly when [n] is negative or fewer than
    [n] runes follow the cursor (or the cursor is below -1); otherwise it
    returns [n] runes, the [i]-th of which is the rune [i + 1] positions
    after the cursor. *)
Theorem lookahead_window (n : Z) (c : Converter) :
  (lookahead n c = Panic <->
   cursor c + 1 < 0 \/ n < 0 \/ len (in_ c) < cursor c + 1 + n) /\
  (forall l, lookahead n c = Ok l ->
     len l = n /\
     forall i, 0 <= i < n -> index l i = index (in_ c) (cursor c + 1 + i)).
Proof.
  unfold lookahead. split.
  - rewrite slice_Panic. split; intros H; lia.
  - intros l H. apply slice_span in H as (-> & H1 & H2). split.
    + rewrite span_length by lia. lia.
    + intros i Hi. apply span_index; lia.
Qed.



(** X4: [eq] decides equality of rune slices. *)
Theorem eq_decides_equality (a b : list rune) : eq a b = true <-> a = b.
Proof. apply eq_spec. Qed.

(** ** Rounds on a dollar or a backslash *)

Lemma current_dollar_dec (c : Converter) :
  current c = Ok (rune_of "$") \/ current c <> Ok (rune_of "$").
Proof.
  destruct (current c) as [r| |]; try (right; discriminate).
  destruct (Z.eq_dec r (rune_of "$")) as [->|H]; [now left|].
  right. congruence.
Qed.

(** X12: [handleInlineMath] claims the cursor exactly on the escape [\$],
    whatever the mode: it then emits the two runes as they are, moves the
    cursor two positions on and leaves the flag alone. *)
Theorem escape_claimed (c c' : Converter) :
  handleInlineMath c = Ok (true, c') <->
  current c = Ok (rune_of "\") /\ next c = Ok (rune_of "$") /\
  c' = advance 2 (emit (runes "\$") c).
Proof.
  split; [apply handleInlineMath_true|].
  intros (Hc & Hn & ->). unfold handleInlineMath. now rewrite Hc, Hn.
Qed.

(** X13: in math mode, a round on a [$] that has a rune after it copies
    the [$] and leaves math mode exactly when that rune is the space U+0020;
    a tab or a newline after the [$] keeps the mode. *)
Theorem math_mode_closing (c : Converter) (r : rune) :
  inInlineMath c = true -> current c = Ok (rune_of "$") -> next c = Ok r ->
  dispatch c
  = Ok (advance 1 (emitRune (rune_of "$")
                     (setInInlineMath (negb (r =? rune_of " ")) c))).
Proof.
  intros Hm Hc Hn.
  destruct (handleInlineMath_dollar c r Hc Hn) as (b & Hb & _ & Hcl).
  rewrite <- (Hcl Hm).
  apply dispatch_round, round_copy with b.
  - apply handleComments_other with (rune_of "$"); [exact Hc | discriminate].
  - apply handleCDATA_other with (rune_of "$"); [exact Hc | discriminate].
  - exact Hb.
  - now apply handleLatex_after_math.
  - unfold copyCurrent. change (current (setInInlineMath b c)) with (current c).
    now rewrite Hc.
Qed.

Lemma math_mode_closing_witness :
  dispatch (mkConverter 5 3 true (runes " $x$ ") (bytes " $x"))
  = Ok (mkConverter 5 4 false (runes " $x$ ") (bytes " $x$")) /\
  dispatch (mkConverter 5 3 true [32; 36; 120; 36; 9] (bytes " $x"))
  = Ok (mkConverter 5 4 true [32; 36; 120; 36; 9] (bytes " $x$")).
Proof.
  split.
  - exact (math_mode_closing (mkConverter 5 3 true (runes " $x$ ") (bytes " $x"))
             (rune_of " ") eq_refl eq_refl eq_refl).
  - exact (math_mode_closing (mkConverter 5 3 true [32; 36; 120; 36; 9] (bytes " $x"))
             9 eq_refl eq_refl eq_refl).
Defined.

(** X19: on a backslash followed by a backslash a round copies the first
    one only, in either mode; the next round starts on the second backslash,
    which is looked at afresh. *)
Theorem double_backslash_round (c : Converter) :
  current c = Ok (rune_of "\") -> next c = Ok (rune_of "\") ->
  dispatch c = Ok (advance 1 (emitRune (rune_of "\") c)) /\
  current (advance 1 (emitRune (rune_of "\") c)) = Ok (rune_of "\").
Proof.
  intros Hc Hn. split; [|exact Hn].
  assert (Hid : setInInlineMath (inInlineMath c) c = c)
    by now apply setInInlineMath_same.
  apply dispatch_round, round_copy with (inInlineMath c); rewrite ?Hid.
  - apply handleComments_other with (rune_of "\"); [exact Hc | discriminate].
  - apply handleCDATA_other with (rune_of "\"); [exact Hc | discriminate].
  - unfold handleInlineMath. now rewrite Hc, Hn.
  - unfold handleLatex. rewrite Hc, Hn. now destruct (inInlineMath c).
  - unfold copyCurrent. now rewrite Hc.
Qed.

Lemma double_backslash_round_witness :
  dispatch (ByteArrayToConverter (bytes "\\begin{a}"))
  = Ok (mkConverter 10 1 false (runes "\\begin{a}") (bytes "\")).
Proof.
  exact (proj1 (double_backslash_round (ByteArrayToConverter (bytes "\\begin{a}"))
                  eq_refl eq_refl)).
Defined.

(** X16: only a round that starts on a [$] changes the mode flag. *)
Theorem flag_changes_on_dollar_only (c c' : Converter) :
  dispatch c = Ok c' -> inInlineMath c' <> inInlineMath c ->
  current c = Ok (rune_of "$").
Proof.
  intros H Hne. apply dispatch_round in H.
  assert (Hb : forall b, handleInlineMath c = Ok (false, setInInlineMath b c) ->
                         b <> inInlineMath c -> current c = Ok (rune_of "$")).
  { intros b Hi Hb. destruct (current_dollar_dec c) as [Hd|Hd]; [exact Hd|].
    destruct (handleInlineMath_false _ _ Hi) as (b' & E & Hsame).
    apply (f_equal inInlineMath) in E. simpl in E. subst b'.
    elim Hb. now apply Hsame. }
  destruct H as [H1|H1 H2|H1 H2 H3|b H1 H2 H3 H4|b H1 H2 H3 H4 H5].
  - apply handleComments_true in H1 as [(_ & H1 & _) _]. contradiction.
  - apply handleCDATA_true in H2 as [(_ & H2 & _) _]. contradiction.
  - apply handleInlineMath_true in H3 as (_ & _ & ->). now elim Hne.
  - apply handleLatex_forward in H4 as (_ & H4 & _). simpl in H4.
    apply (Hb b H3). congruence.
  - apply copyCurrent_forward in H5 as [(_ & H5 & _) _]. simpl in H5.
    apply (Hb b H3). congruence.
Qed.

Lemma flag_changes_on_dollar_only_witness :
  current (mkConverter 5 3 true (runes " $x$ ") (bytes " $x")) = Ok (rune_of "$").
Proof.
  apply (flag_changes_on_dollar_only
           (mkConverter 5 3 true (runes " $x$ ") (bytes " $x"))
           (mkConverter 5 4 false (runes " $x$ ") (bytes " $x$"))).
  - vm_compute. reflexivity.
  - simpl. discriminate.
Defined.

(** ** Plain text, and the length of a conversion *)

Lemma plain_round (c : Converter) (r : rune) :
  current c = Ok r ->
  r <> rune_of "<" -> r <> rune_of "$" -> r <> rune_of "\" ->
  dispatch c = Ok (advance 1 (emitRune r c)).
Proof.
  intros Hc H1 H2 H3.
  assert (Hid : setInInlineMath (inInlineMath c) c = c)
    by now apply setInInlineMath_same.
  apply dispatch_round, round_copy with (inInlineMath c); rewrite ?Hid.
  - now apply handleComments_other with r.
  - now apply handleCDATA_other with r.
  - unfold handleInlineMath, andR, eqRune, neRune. rewrite Hc. simpl.
    apply Z.eqb_neq in H2, H3. now rewrite H2, H3.
  - now apply handleLatex_not_backslash with r.
  - unfold copyCurrent. now rewrite Hc.
Qed.

Lemma plain_loop (fuel : nat) :
  forall c : Converter,
  wf c -> (remaining c <= fuel)%nat ->
  (forall p r, cursor c <= p -> index (in_ c) p = Ok r ->
     r <> rune_of "<" /\ r <> rune_of "$" /\ r <> rune_of "\") ->
  Convert_loop fuel c = Ok (copiedToEof c).
Proof.
  unfold Convert_loop.
  induction fuel as [|fuel IH]; intros c Hwf Hf Hplain;
    destruct (atEof c) eqn:He;
    try (simpl; rewrite He; simpl; now rewrite copiedToEof_atEof);
    try (apply remaining_pos in He; lia).
  simpl. rewrite He. simpl.
  destruct (current_in_range c Hwf He) as (r & Hr).
  destruct (Hplain (cursor c) r) as (H1 & H2 & H3); [lia | exact Hr |].
  rewrite (plain_round c r Hr H1 H2 H3). simpl.
  rewrite <- (copiedToEof_step c r Hwf He Hr). apply IH.
  - now apply wf_copy.
  - pose proof (remaining_less c (advance 1 (emitRune r c)) He eq_refl) as H.
    simpl in H. lia.
  - intros p q Hp Hq. simpl in *. apply (Hplain p q); [lia | exact Hq].
Qed.

Lemma span_all (s : list rune) : span s 0 (len s) = s.
Proof.
  unfold span, len. rewrite Z.sub_0_r, Nat2Z.id. simpl. apply firstn_all.
Qed.

(** X1: from a converter in good form whose remaining runes are all other
    than [<], [$] and the backslash, the conversion returns, having copied
    these runes to the output as they are. *)
Theorem plain_text_copied (c : Converter) :
  wf c ->
  (forall p r, cursor c <= p -> index (in_ c) p = Ok r ->
     r <> rune_of "<" /\ r <> rune_of "$" /\ r <> rune_of "\") ->
  Convert c
  = Ok (out c ++ encode (span (in_ c) (cursor c) (inputLength c))).
Proof.
  intros Hwf Hplain. unfold Convert.
  now rewrite (plain_loop (remaining c) c Hwf (le_n _) Hplain).
Qed.

Lemma plain_text_copied_witness :
  Convert (mkConverter 11 5 false (runes "\a{b} plain") (bytes "<!--\a{b}-->"))
  = Ok (bytes "<!--\a{b}--> plain").
Proof.
  rewrite (plain_text_copied
             (mkConverter 11 5 false (runes "\a{b} plain") (bytes "<!--\a{b}-->"))).
  - vm_compute. reflexivity.
  - split; [reflexivity | simpl; lia].
  - intros p r Hp Hi. simpl in Hp. pose proof Hi as Hb.
    apply index_Ok in Hb as [Hb _]. unfold len in Hb. simpl in Hb.
    assert (Hcase : p = 5 \/ p = 6 \/ p = 7 \/ p = 8 \/ p = 9 \/ p = 10) by lia.
    destruct Hcase as [-> | [-> | [-> | [-> | [-> | ->]]]]];
      vm_compute in Hi; injection Hi as <-; repeat split; discriminate.
Defined.

(** X2: a document of ASCII bytes none of which is [<], [$] or the
    backslash is returned as it is; so is the empty document. *)
Theorem ascii_plain_text_unchanged (input : list byte) :
  Forall (fun b => 0 <= b < 0x80 /\
                   b <> rune_of "<" /\ b <> rune_of "$" /\ b <> rune_of "\")
         input ->
  SXMD input = Ok input.
Proof.
  intros Hin.
  assert (Hascii : Forall (fun b => 0 <= b < 0x80) input)
    by (eapply Forall_impl; [|exact Hin]; intros b Hb; apply Hb).
  unfold SXMD, Convert.
  rewrite (plain_loop _ _ (wf_ByteArrayToConverter input) (le_n _)).
  - unfold ByteArrayToConverter. rewrite (Runes_ascii input Hascii).
    simpl. unfold copiedToEof. simpl. rewrite span_all.
    now rewrite (encode_ascii input Hascii).
  - intros p r _ Hi. unfold ByteArrayToConverter in Hi.
    rewrite (Runes_ascii input Hascii) in Hi. simpl in Hi.
    apply index_Ok in Hi as [_ Hi].
    apply nth_error_In in Hi. rewrite Forall_forall in Hin.
    now apply Hin.
Qed.

Lemma ascii_plain_text_unchanged_witness :
  SXMD (bytes "plain *text*, no markup") = Ok (bytes "plain *text*, no markup") /\
  SXMD [] = Ok [].
Proof.
  split; apply ascii_plain_text_unchanged.
  - repeat (apply Forall_cons; [vm_compute; repeat split; discriminate|]).
    apply Forall_nil.
  - apply Forall_nil.
Defined.

(** X3: the conversion loop ends within as many rounds as there are
    positions left before end of input: with that bound it returns or panics,
    and a larger bound gives the same outcome. *)
Theorem conversion_terminates (c : Converter) (fuel : nat) :
  (remaining c <= fuel)%nat ->
  Convert_loop fuel c = Convert_loop (remaining c) c /\
  Convert_loop fuel c <> OutOfFuel.
Proof.
  intros Hf.
  assert (E : Convert_loop fuel c = Convert_loop (remaining c) c).
  { unfold Convert_loop. apply while_more_fuel; [apply Convert_loop_total | exact Hf]. }
  split; [exact E|]. rewrite E. apply Convert_loop_total.
Qed.

Lemma conversion_terminates_witness :
  Convert_loop 100 (ByteArrayToConverter (bytes "a $x$ \b{c} <!-- d -->"))
  = Convert_loop 22 (ByteArrayToConverter (bytes "a $x$ \b{c} <!-- d -->")).
Proof.
  refine (proj1 (conversion_terminates
                   (ByteArrayToConverter (bytes "a $x$ \b{c} <!-- d -->")) 100 _)).
  apply Nat.leb_le. vm_compute. reflexivity.
Defined.

(** ** Comments and CDATA sections that are terminated *)

Lemma sameInput_trans (a b c : Converter) :
  sameInput a b -> sameInput b c -> sameInput a c.
Proof. unfold sameInput. intros [? ?] [? ?]. split; congruence. Qed.

(** A loop whose rounds move the cursor one position on, and whose
    condition fails first at position [t], ends there. *)
Lemma while_until (cond : Converter -> result bool)
    (body : Converter -> result Converter) (fuel : nat) :
  forall (c : Converter) (t : Z),
  cursor c <= t -> (Z.to_nat (t - cursor c) <= fuel)%nat ->
  (forall a, sameInput c a -> cursor c <= cursor a < t ->
     cond a = Ok true /\
     exists a1, body a = Ok a1 /\ sameInput a a1 /\ cursor a1 = cursor a + 1) ->
  (forall a, sameInput c a -> cursor a = t -> cond a = Ok false) ->
  exists c', while fuel cond body c = Ok c' /\ cursor c' = t /\ sameInput c c'.
Proof.
  assert (Hrefl : forall a, sameInput a a) by (intros a; split; reflexivity).
  induction fuel as [|fuel IH]; intros c t Hle Hf Hgo Hstop;
    destruct (Z.eq_dec (cursor c) t) as [E|E]; try lia;
    try (exists c; simpl; rewrite (Hstop c (Hrefl c) E); auto).
  destruct (Hgo c (Hrefl c)) as (Hc & c1 & Hb & Hs & Hc1); [lia|].
  destruct (IH c1 t) as (c' & Hw & Ht & Hs'); try lia.
  - intros a Ha Hr. apply Hgo; [eapply sameInput_trans; eauto | lia].
  - intros a Ha Hr. apply Hstop; [eapply sameInput_trans; eauto | exact Hr].
  - exists c'. simpl. rewrite Hc. simpl. rewrite Hb. simpl.
    split; [exact Hw|]. split; [exact Ht | eapply sameInput_trans; eauto].
Qed.

(** The condition of the two scanning loops, up to the first terminator
    [x :: s2] at position [t]. *)
Lemma terminator_cond (cond : Converter -> result bool) (x : rune)
    (s2 : list rune) (c : Converter) (t : Z) :
  (forall a, cond a
             = andR (Ok (negb (atEof a)))
                    (orR (neRune (current a) x)
                         (notR (eqRunes (lookahead 2 a) s2)))) ->
  wf c -> cursor c <= t ->
  slice (in_ c) t (t + 3) = Ok (x :: s2) ->
  (forall p, cursor c <= p < t -> slice (in_ c) p (p + 3) <> Ok (x :: s2)) ->
  (forall a, sameInput c a -> cursor c <= cursor a < t ->
     cond a = Ok true /\ exists r, current a = Ok r) /\
  (forall a, sameInput c a -> cursor a = t -> cond a = Ok false).
Proof.
  intros Hcond [Hl Hp] Hle Ht Hfirst.
  pose proof Ht as Hb. apply slice_span in Hb as (_ & _ & Hb).
  replace (t + 3) with (t + 1 + 2) in Ht by lia.
  apply slice_head in Ht as [Hx Hs]; [|lia].
  split.
  - intros a [Ha1 Ha2] Hr. rewrite Hcond.
    assert (He : atEof a = false) by (apply atEof_false; lia).
    rewrite He. simpl.
    destruct (index_in_range (in_ c) (cursor a)) as (r & Hr'); [lia|].
    unfold current, lookahead. rewrite Ha2, Hr'. split; [|eauto].
    unfold orR, neRune. simpl.
    destruct (r =? x) eqn:E; [|reflexivity]. simpl.
    apply Z.eqb_eq in E. subst r.
    rewrite slice_in_bounds by lia. simpl.
    destruct (eq (span (in_ c) (cursor a + 1) (cursor a + 1 + 2)) s2) eqn:El;
      [|reflexivity].
    apply eq_spec in El. elim (Hfirst (cursor a) Hr).
    replace (cursor a + 3) with (cursor a + 1 + 2) by lia.
    apply slice_head; [lia|]. split; [exact Hr'|].
    rewrite slice_in_bounds by lia. now rewrite El.
  - intros a [Ha1 Ha2] Hr. rewrite Hcond.
    assert (He : atEof a = false) by (apply atEof_false; lia).
    rewrite He. simpl. unfold current, lookahead. rewrite Ha2, Hr, Hx, Hs.
    unfold orR, neRune, notR, eqRunes. simpl. rewrite Z.eqb_refl. simpl.
    now rewrite (proj2 (eq_spec s2 s2) eq_refl).
Qed.

(** X5: entered on [<!--], with the first [-->] from the cursor on at
    position [t], the comment recognizer claims the cursor, copies the input
    up to and with that [-->] as it is - nothing inside the comment is
    rewritten - and leaves the cursor just after it, the flag unchanged. *)
Theorem comment_copied_to_terminator (c : Converter) (t : Z) :
  wf c -> current c = Ok (rune_of "<") -> lookahead 3 c = Ok (runes "!--") ->
  cursor c <= t -> slice (in_ c) t (t + 3) = Ok (runes "-->") ->
  (forall p, cursor c <= p < t -> slice (in_ c) p (p + 3) <> Ok (runes "-->")) ->
  exists c',
    handleComments c = Ok (true, c') /\
    cursor c' = t + 3 /\
    out c' = out c ++ encode (span (in_ c) (cursor c) (t + 3)) /\
    inInlineMath c' = inInlineMath c /\ in_ c' = in_ c.
Proof.
  intros Hwf Hc Hl Hle Ht Hfirst.
  destruct (terminator_cond commentCond (rune_of "-") (runes "->") c t)
    as [Hgo Hstop]; try assumption; [reflexivity|].
  pose proof Ht as Hb. apply slice_span in Hb as (Hb & _ & Hlen).
  destruct Hwf as [Hw Hp].
  destruct (while_until commentCond copyCurrent (remaining c) c t)
    as (c1 & Hw1 & Hc1 & Hs1); try assumption.
  - unfold remaining. lia.
  - intros a Ha Hr. destruct (Hgo a Ha Hr) as (Hcond & r & Hcur).
    split; [exact Hcond|]. exists (advance 1 (emitRune r a)).
    unfold copyCurrent. rewrite Hcur. simpl. repeat split.
  - exists (advance 3 (emit (runes "-->") c1)).
    unfold handleComments. rewrite Hc, Hl. simpl. rewrite Hw1. simpl.
    split; [reflexivity|]. split; [lia|].
    pose proof (copy_while_out _ _ _ _ Hp Hw1) as Ho.
    apply copy_while_forward in Hw1 as [(_ & Hm & _) _].
    split; [|split; [exact Hm | apply Hs1]].
    rewrite Hc1 in Ho.
    rewrite (span_split (in_ c) (cursor c) t (t + 3)) by lia.
    rewrite <- Hb, encode_app, app_assoc, <- Ho. reflexivity.
Qed.

Lemma comment_copied_to_terminator_witness :
  exists c',
    handleComments (mkConverter 16 2 false (runes "a <!-- \b -->$ c") (bytes "a "))
    = Ok (true, c') /\
    cursor c' = 13 /\ out c' = bytes "a <!-- \b -->".
Proof.
  destruct (comment_copied_to_terminator
              (mkConverter 16 2 false (runes "a <!-- \b -->$ c") (bytes "a ")) 10)
    as (c' & H & Hc & Ho & _).
  - split; [reflexivity | simpl; lia].
  - reflexivity.
  - reflexivity.
  - simpl. lia.
  - reflexivity.
  - intros p Hp. simpl in Hp.
    assert (Hcase : p = 2 \/ p = 3 \/ p = 4 \/ p = 5 \/ p = 6 \/ p = 7 \/
                    p = 8 \/ p = 9) by lia.
    destruct Hcase as [-> | [-> | [-> | [-> | [-> | [-> | [-> | ->]]]]]]];
      vm_compute; discriminate.
  - exists c'. split; [exact H|]. split; [exact Hc|]. rewrite Ho.
    vm_compute. reflexivity.
Defined.

(** X7: entered on [<![CDATA[], with the first []]>] from the cursor on at
    position [t], the CDATA recognizer claims the cursor and leaves it just
    after that []]>], having written nothing. *)
Theorem cdata_skipped_to_terminator (c : Converter) (t : Z) :
  wf c -> current c = Ok (rune_of "<") ->
  lookahead 8 c = Ok (runes "![CDATA[") ->
  cursor c <= t -> slice (in_ c) t (t + 3) = Ok (runes "]]>") ->
  (forall p, cursor c <= p < t -> slice (in_ c) p (p + 3) <> Ok (runes "]]>")) ->
  exists c',
    handleCDATA c = Ok (true, c') /\
    cursor c' = t + 3 /\ out c' = out c /\
    inInlineMath c' = inInlineMath c /\ in_ c' = in_ c.
Proof.
  intros Hwf Hc Hl Hle Ht Hfirst.
  destruct (terminator_cond cdataCond (rune_of "]") (runes "]>") c t)
    as [Hgo Hstop]; try assumption; [reflexivity|].
  pose proof Ht as Hb. apply slice_span in Hb as (Hb & _ & Hlen).
  destruct Hwf as [Hw Hp].
  destruct (while_until cdataCond (fun a => Ok (advance 1 a)) (remaining c) c t)
    as (c1 & Hw1 & Hc1 & Hs1); try assumption.
  - unfold remaining. lia.
  - intros a Ha Hr. destruct (Hgo a Ha Hr) as (Hcond & _).
    split; [exact Hcond|]. exists (advance 1 a). repeat split.
  - exists (advance 3 c1).
    unfold handleCDATA. rewrite Hc, Hl. simpl. rewrite Hw1. simpl.
    split; [reflexivity|]. split; [lia|].
    apply skip_while_forward in Hw1 as [[(_ & Hm & _) Ho] _].
    split; [exact Ho|]. split; [exact Hm | apply Hs1].
Qed.

Lemma cdata_skipped_to_terminator_witness :
  exists c',
    handleCDATA (mkConverter 17 1 false (runes "a<![CDATA[x]y]]>b") (bytes "a"))
    = Ok (true, c') /\
    cursor c' = 16 /\ out c' = bytes "a".
Proof.
  destruct (cdata_skipped_to_terminator
              (mkConverter 17 1 false (runes "a<![CDATA[x]y]]>b") (bytes "a")) 13)
    as (c' & H & Hc & Ho & _).
  - split; [reflexivity | simpl; lia].
  - reflexivity.
  - reflexivity.
  - simpl. lia.
  - reflexivity.
  - intros p Hp. simpl in Hp.
    assert (Hcase : p = 1 \/ p = 2 \/ p = 3 \/ p = 4 \/ p = 5 \/ p = 6 \/
                    p = 7 \/ p = 8 \/ p = 9 \/ p = 10 \/ p = 11 \/ p = 12) by lia.
    destruct Hcase as
      [-> | [-> | [-> | [-> | [-> | [-> | [-> | [-> | [-> | [-> | [-> | ->]]]]]]]]]]];
      vm_compute; discriminate.
  - exists c'. split; [exact H|]. split; [exact Hc | exact Ho].
Defined.

(** X8: whatever it returns, the CDATA recognizer has written nothing to
    the output and has left the flag and the input as they were. *)
Theorem cdata_never_written (c c' : Converter) (b : bool) :
  handleCDATA c = Ok (b, c') ->
  out c' = out c /\ inInlineMath c' = inInlineMath c /\ in_ c' = in_ c.
Proof.
  intros H. destruct b.
  - apply handleCDATA_true in H as [([_ Hi] & Hm & _) [_ Ho]]. auto.
  - apply handleCDATA_false in H. subst. auto.
Qed.

Lemma cdata_never_written_witness :
  out (mkConverter 16 19 false (runes "a<![CDATA[x $ \y") (bytes "a")) = bytes "a".
Proof.
  apply (cdata_never_written
           (mkConverter 16 1 false (runes "a<![CDATA[x $ \y") (bytes "a"))
           (mkConverter 16 19 false (runes "a<![CDATA[x $ \y") (bytes "a")) true).
  vm_compute. reflexivity.
Defined.

(** ** The LaTeX rewriters *)

Lemma wf_forward (c c' : Converter) : wf c -> forward c c' -> wf c'.
Proof.
  intros [Hl Hp] ([H1 H2] & _ & H3). split; [congruence | lia].
Qed.

(** A copy loop whose condition reads the rune under the cursor only
    before end of input does not panic, and stops at end of input at the
    latest. *)
Lemma copy_while_safe (cond : Converter -> result bool) (fuel : nat) :
  (forall a, wf a -> exists b, cond a = Ok b /\ (b = true -> atEof a = false)) ->
  forall c : Converter,
  wf c -> (remaining c <= fuel)%nat ->
  exists c', while fuel cond copyCurrent c = Ok c' /\
             cursor c' <= Z.max (cursor c) (inputLength c).
Proof.
  intros Hcond. induction fuel as [|fuel IH]; intros c Hwf Hf;
    destruct (Hcond c Hwf) as ([|] & Hc & He);
    try (exists c; simpl; rewrite Hc; simpl; split; [reflexivity | lia]).
  - specialize (He eq_refl). apply remaining_pos in He. lia.
  - specialize (He eq_refl).
    destruct (current_in_range c Hwf He) as (r & Hr).
    destruct (IH (advance 1 (emitRune r c))) as (c' & Hw & Hb).
    + now apply wf_copy.
    + pose proof (remaining_less c (advance 1 (emitRune r c)) He eq_refl) as H.
      simpl in H. lia.
    + exists c'. simpl. rewrite Hc. simpl. unfold copyCurrent. rewrite Hr. simpl.
      split; [exact Hw|]. simpl in Hb. apply atEof_false in He. lia.
Qed.

Lemma nameCond_safe (a : Converter) :
  wf a -> exists b, nameCond a = Ok b /\ (b = true -> atEof a = false).
Proof.
  intros Hwf. unfold nameCond. destruct (atEof a) eqn:He.
  - exists false. split; [reflexivity | discriminate].
  - destruct (current_in_range a Hwf He) as (r & Hr). rewrite Hr.
    unfold andR, neRune. simpl.
    destruct (negb (r =? rune_of "{")); simpl; [|now exists false].
    destruct (negb (r =? rune_of "[")); simpl; [|now exists false].
    now exists (negb (IsSpace r)).
Qed.

(** The loop over the bracket groups: it does not panic, it writes what it
    moves over, and it stops at end of input or on a rune that opens no
    group. *)
Lemma commandArgs_spec (fuel : nat) :
  forall (n : Z) (c : Converter),
  wf c -> (remaining c <= fuel)%nat ->
  exists c',
    commandArgs fuel n c = Ok c' /\ forward c c' /\
    cursor c' <= Z.max (cursor c) (inputLength c) /\
    out c' = out c ++ encode (span (in_ c) (cursor c) (cursor c')) /\
    (atEof c' = true \/
     exists r, current c' = Ok r /\ r <> rune_of "{" /\ r <> rune_of "[").
Proof.
  induction fuel as [|fuel IH]; intros n c Hwf Hf;
    destruct (atEof c) eqn:He;
    try (exists c; simpl; rewrite He;
         split; [reflexivity|]; split; [apply forward_refl|]; split; [lia|];
         split; [now rewrite span_empty, app_nil_r | now left]);
    try (apply remaining_pos in He; lia).
  destruct (current_in_range c Hwf He) as (r & Hr).
  simpl. rewrite He, Hr. unfold andR, orR, neRune, eqRune. simpl.
  destruct ((n =? 0) && negb (r =? rune_of "{") && negb (r =? rune_of "["))
    eqn:Estop.
  - (* the break *)
    apply andb_true_iff in Estop as [Estop E2].
    apply andb_true_iff in Estop as [E0 E1].
    rewrite E0, E1, E2. simpl.
    exists c. split; [reflexivity|]. split; [apply forward_refl|].
    split; [lia|]. split; [now rewrite span_empty, app_nil_r|].
    right. exists r. split; [exact Hr|].
    apply negb_true_iff in E1, E2. apply Z.eqb_neq in E1, E2. auto.
  - set (n1 := if (r =? rune_of "{") || (r =? rune_of "[") then n + 1 else n).
    set (n2 := if (r =? rune_of "}") || (r =? rune_of "]") then n1 - 1 else n1).
    destruct (IH n2 (advance 1 (emitRune r c))) as (c' & Hw & Hfw & Hb & Ho & Hend).
    { now apply wf_copy. }
    { pose proof (remaining_less c (advance 1 (emitRune r c)) He eq_refl) as H.
      simpl in H. lia. }
    exists c'.
    assert (Hrun : (stop <- (if n =? 0
                             then (if negb (r =? rune_of "{")
                                   then Ok (negb (r =? rune_of "["))
                                   else Ok false)
                             else Ok false) ;;
                    (if stop then Ok c
                     else
                       opening <- (if r =? rune_of "{" then Ok true
                                   else Ok (r =? rune_of "[")) ;;
                       closing <- (if r =? rune_of "}" then Ok true
                                   else Ok (r =? rune_of "]")) ;;
                       c1 <- copyCurrent c ;;
                       commandArgs fuel
                         (if closing
                          then (if opening then n + 1 else n) - 1
                          else if opening then n + 1 else n) c1))
                   = Ok c').
    { unfold copyCurrent. rewrite Hr. simpl bind at 4.
      destruct (n =? 0); destruct (r =? rune_of "{") eqn:Eo;
        destruct (r =? rune_of "[") eqn:Ec; simpl in *;
        try discriminate Estop;
        destruct (r =? rune_of "}"); destruct (r =? rune_of "]"); simpl;
        exact Hw. }
    split; [exact Hrun|]. destruct Hwf as [Hl Hp].
    assert (Hone : forward c (advance 1 (emitRune r c)))
      by (unfold forward, sameInput; simpl; repeat split; lia).
    split; [eapply forward_trans; [exact Hone | exact Hfw]|].
    simpl in Hb, Ho. apply atEof_false in He.
    split; [lia|]. split; [|exact Hend].
    destruct Hfw as (_ & _ & Hc'). simpl in Hc'.
    rewrite Ho, <- app_assoc.
    rewrite (span_split (in_ c) (cursor c) (cursor c + 1) (cursor c')) by lia.
    unfold current in Hr. rewrite (span_one _ _ _ Hr), encode_app. simpl.
    now rewrite app_nil_r.
Qed.

Lemma handleLatexCommand_spec (b : bool) (c : Converter) :
  wf c ->
  exists c',
    handleLatexCommand b c = Ok c' /\ forward c c' /\
    cursor c' <= Z.max (cursor c) (inputLength c) /\
    out c' = out c ++ (if b then bytes "<!--" else [])
                   ++ encode (span (in_ c) (cursor c) (cursor c'))
                   ++ (if b then bytes "-->" else []) /\
    (atEof c' = true \/
     exists r, current c' = Ok r /\ r <> rune_of "{" /\ r <> rune_of "[").
Proof.
  intros Hwf. unfold handleLatexCommand.
  set (c0 := if b then emit (runes "<!--") c else c).
  assert (Hwf0 : wf c0) by (destruct b; exact Hwf).
  assert (Hf0 : forward c c0)
    by (destruct b; [apply forward_emit | apply forward_refl]).
  assert (Ho0 : out c0 = out c ++ (if b then bytes "<!--" else []))
    by (destruct b; simpl; [reflexivity | now rewrite app_nil_r]).
  assert (Hc0 : cursor c0 = cursor c /\ in_ c0 = in_ c /\
                inputLength c0 = inputLength c) by (destruct b; auto).
  destruct Hc0 as (Hc0 & Hi0 & Hl0).
  destruct (copy_while_safe nameCond (remaining c0) nameCond_safe c0 Hwf0 (le_n _))
    as (c1 & Hw1 & Hb1).
  pose proof (copy_while_out _ _ _ _ (proj2 Hwf0) Hw1) as Ho1.
  pose proof (copy_while_forward _ _ _ _ Hw1) as [Hf1 _].
  pose proof (wf_forward _ _ Hwf0 Hf1) as Hwf1.
  destruct (commandArgs_spec (remaining c1) 0 c1 Hwf1 (le_n _))
    as (c2 & Hw2 & Hf2 & Hb2 & Ho2 & Hend).
  exists (if b then emit (runes "-->") c2 else c2).
  rewrite Hw1. simpl. rewrite Hw2. simpl.
  destruct Hf1 as ([Hl1 Hi1] & Hm1 & Hc1).
  destruct Hf2 as ([Hl2 Hi2] & Hm2 & Hc2).
  destruct Hwf as [Hl Hp].
  split; [reflexivity|].
  assert (Hm0 : inInlineMath c0 = inInlineMath c) by (destruct b; reflexivity).
  split; [unfold forward, sameInput; destruct b; simpl;
          repeat split; try congruence; lia|].
  split; [destruct b; simpl; lia|].
  split; [|destruct b; exact Hend].
  assert (Hout : out c2 = out c ++ (if b then bytes "<!--" else [])
                         ++ encode (span (in_ c) (cursor c) (cursor c2))).
  { rewrite Ho2, Ho1, Ho0, Hi1, Hi0, Hc0, <- !app_assoc.
    do 2 f_equal. rewrite <- encode_app.
    now rewrite <- (span_split (in_ c) (cursor c) (cursor c1) (cursor c2)) by lia. }
  destruct b; simpl.
  - rewrite Hout. now rewrite <- !app_assoc.
  - rewrite Hout. simpl. now rewrite app_nil_r.
Qed.

(** X9: from a converter in good form the command rewriter never panics.
    It writes the runes it moves over as they are, between [<!--] and [-->]
    when asked to wrap them, and stops at end of input or on a rune that is
    neither [{] nor [[]; the flag is unchanged. *)
Theorem command_rewriter_wraps (b : bool) (c : Converter) :
  wf c ->
  exists c',
    handleLatexCommand b c = Ok c' /\
    cursor c <= cursor c' <= Z.max (cursor c) (inputLength c) /\
    inInlineMath c' = inInlineMath c /\
    out c' = out c ++ (if b then bytes "<!--" else [])
                   ++ encode (span (in_ c) (cursor c) (cursor c'))
                   ++ (if b then bytes "-->" else []) /\
    (atEof c' = true \/
     exists r, current c' = Ok r /\ r <> rune_of "{" /\ r <> rune_of "[").
Proof.
  intros Hwf.
  destruct (handleLatexCommand_spec b c Hwf) as (c' & H & Hf & Hb & Ho & Hend).
  exists c'. destruct Hf as (_ & Hm & Hc). repeat split; auto.
Qed.

Lemma command_rewriter_wraps_witness :
  exists c',
    handleLatexCommand true (ByteArrayToConverter (bytes "\frac{a}[b] c")) = Ok c' /\
    cursor c' = 11 /\ out c' = bytes "<!--\frac{a}[b]-->".
Proof.
  destruct (command_rewriter_wraps true (ByteArrayToConverter (bytes "\frac{a}[b] c")))
    as (c' & H & _).
  - split; [reflexivity | simpl; lia].
  - exists c'. split; [exact H|].
    vm_compute in H. injection H as <-. split; reflexivity.
Defined.

(** The loop of the block rewriter writes what it moves over, then [-->]
    unless it has run into the end of input. *)
Lemma blockLoop_shape (fuel : nat) :
  forall (n : Z) (c c' : Converter),
  wf c -> blockLoop fuel n c = Ok c' ->
  forward c c' /\ cursor c' <= Z.max (cursor c) (inputLength c) /\
  exists closing,
    out c' = out c ++ encode (span (in_ c) (cursor c) (cursor c')) ++ closing /\
    (closing = bytes "-->" \/ (closing = [] /\ atEof c' = true)).
Proof.
  induction fuel as [|fuel IH]; intros n c c' Hwf H; simpl in H;
    destruct (atEof c) eqn:He;
    try (injection H as <-; split; [apply forward_refl|]; split; [lia|];
         exists []; split; [now rewrite span_empty, !app_nil_r | now right]);
    apply bind_Ok in H as (n1 & Hn & H);
    destruct (n1 =? 0) eqn:E0; try discriminate.
  - (* the last \end, with the loop bound at hand or not *)
    apply bind_Ok in H as (c1 & H1 & H). injection H as <-.
    destruct (handleLatexCommand_spec false c Hwf) as (c2 & H2 & Hf & Hb & Ho & _).
    assert (c2 = c1) by congruence. subst c2.
    split; [eapply forward_trans; [exact Hf | apply forward_emit]|].
    split; [exact Hb|]. exists (bytes "-->"). split; [|now left].
    simpl. rewrite Ho. simpl. rewrite app_nil_r, <- app_assoc. reflexivity.
  - apply bind_Ok in H as (c1 & H1 & H). injection H as <-.
    destruct (handleLatexCommand_spec false c Hwf) as (c2 & H2 & Hf & Hb & Ho & _).
    assert (c2 = c1) by congruence. subst c2.
    split; [eapply forward_trans; [exact Hf | apply forward_emit]|].
    split; [exact Hb|]. exists (bytes "-->"). split; [|now left].
    simpl. rewrite Ho. simpl. rewrite app_nil_r, <- app_assoc. reflexivity.
  - apply bind_Ok in H as (c1 & H1 & H).
    apply copyCurrent_Ok in H1 as (r & Hr & ->).
    destruct (IH n1 _ c' (wf_copy c r Hwf) H) as (Hf & Hb & closing & Ho & Hcl).
    assert (Hone : forward c (advance 1 (emitRune r c)))
      by (unfold forward, sameInput; simpl; repeat split; lia).
    split; [eapply forward_trans; [exact Hone | exact Hf]|].
    apply atEof_false in He. simpl in Hb, Ho. split; [lia|].
    exists closing. split; [|exact Hcl].
    destruct Hf as (_ & _ & Hc'). simpl in Hc'. destruct Hwf as [Hl Hp].
    rewrite Ho, <- !app_assoc. f_equal.
    rewrite (span_split (in_ c) (cursor c) (cursor c + 1) (cursor c')) by lia.
    unfold current in Hr. rewrite (span_one _ _ _ Hr), encode_app. simpl.
    now rewrite app_nil_r, <- app_assoc.
Qed.

Lemma handleLatexBlock_shape (c c' : Converter) :
  wf c -> handleLatexBlock c = Ok c' ->
  forward c c' /\ cursor c' <= Z.max (cursor c) (inputLength c) /\
  exists closing,
    out c' = out c ++ bytes "<!--"
                   ++ encode (span (in_ c) (cursor c) (cursor c')) ++ closing /\
    (closing = bytes "-->" \/ (closing = [] /\ atEof c' = true)).
Proof.
  intros Hwf H. unfold handleLatexBlock in H.
  apply blockLoop_shape in H as (Hf & Hb & closing & Ho & Hcl); [|exact Hwf].
  split; [eapply forward_trans; [apply (forward_emit (runes "<!--")) | exact Hf]|].
  split; [exact Hb|]. exists closing. split; [|exact Hcl].
  simpl in Ho. now rewrite Ho, <- !app_assoc.
Qed.

(** X10: when the block rewriter returns, it has written [<!--], then the
    runes it has moved over as they are, then [-->] - or no [-->] at all, in
    which case it has run into the end of input; it has not gone past the
    end of input and has left the flag alone. *)
Theorem block_rewriter_shape (c c' : Converter) :
  wf c -> handleLatexBlock c = Ok c' ->
  cursor c <= cursor c' <= Z.max (cursor c) (inputLength c) /\
  inInlineMath c' = inInlineMath c /\
  exists closing,
    out c' = out c ++ bytes "<!--"
                   ++ encode (span (in_ c) (cursor c) (cursor c')) ++ closing /\
    (closing = bytes "-->" \/ (closing = [] /\ atEof c' = true)).
Proof.
  intros Hwf H.
  destruct (handleLatexBlock_shape c c' Hwf H) as ((_ & Hm & Hc) & Hb & Hcl).
  repeat split; auto.
Qed.

Lemma block_rewriter_shape_witness :
  exists closing,
    bytes "<!--\begin{a}x\end{a}-->"
    = [] ++ bytes "<!--" ++ encode (span (runes "\begin{a}x\end{a} y") 0 17)
         ++ closing /\
    (closing = bytes "-->" \/
     (closing = [] /\
      atEof (mkConverter 19 17 false (runes "\begin{a}x\end{a} y")
               (bytes "<!--\begin{a}x\end{a}-->")) = true)).
Proof.
  apply (block_rewriter_shape
           (ByteArrayToConverter (bytes "\begin{a}x\end{a} y"))
           (mkConverter 19 17 false (runes "\begin{a}x\end{a} y")
              (bytes "<!--\begin{a}x\end{a}-->"))).
  - split; [reflexivity | simpl; lia].
  - vm_compute. reflexivity.
Defined.

(** ** What a round keeps *)

Lemma while_bounded (cond : Converter -> result bool)
    (body : Converter -> result Converter) :
  (forall a, cond a = Ok true -> atEof a = false) ->
  (forall a a1, cond a = Ok true -> body a = Ok a1 ->
     inputLength a1 = inputLength a /\ cursor a1 = cursor a + 1) ->
  forall fuel c c', while fuel cond body c = Ok c' ->
  cursor c' <= Z.max (cursor c) (inputLength c).
Proof.
  intros He Hb fuel c c' H.
  apply (while_Ok (fun a b => inputLength b = inputLength a /\
                              cursor b <= Z.max (cursor a) (inputLength a)))
    in H; [apply H | | |].
  - intros a. split; [reflexivity | lia].
  - intros x y z [H1 H2] [H3 H4]. split; [congruence | lia].
  - intros a a1 Hc Ha. destruct (Hb a a1 Hc Ha) as [H1 H2].
    apply He, atEof_false in Hc. split; [exact H1 | lia].
Qed.

Lemma handleComments_shape (c c' : Converter) :
  wf c -> handleComments c = Ok (true, c') ->
  (exists w, out c' = out c ++ w) /\
  cursor c' <= Z.max (cursor c) (inputLength c) + 3.
Proof.
  intros [Hl Hp] H. unfold handleComments in H.
  apply bind_Ok in H as ([|] & _ & H); [discriminate|].
  apply bind_Ok in H as (c1 & H1 & H). injection H as <-. split.
  - exists (encode (span (in_ c) (cursor c) (cursor c1)) ++ encode (runes "-->")).
    simpl. rewrite (copy_while_out _ _ _ _ Hp H1). now rewrite <- app_assoc.
  - apply while_bounded in H1; [simpl; lia | |].
    + intros a. apply andR_negb_atEof.
    + intros a a1 _ Ha. apply copyCurrent_forward in Ha as [([Ha _] & _) Hc].
      auto.
Qed.

Lemma handleCDATA_bound (c c' : Converter) :
  handleCDATA c = Ok (true, c') ->
  cursor c' <= Z.max (cursor c) (inputLength c) + 3.
Proof.
  intros H. unfold handleCDATA in H.
  apply bind_Ok in H as ([|] & _ & H); [discriminate|].
  apply bind_Ok in H as (c1 & H1 & H). injection H as <-.
  apply while_bounded in H1; [simpl; lia | |].
  - intros a. apply andR_negb_atEof.
  - intros a a1 _ Ha. injection Ha as <-. auto.
Qed.

Lemma handleLatex_shape (c c' : Converter) :
  wf c -> handleLatex c = Ok (true, c') ->
  (exists w, out c' = out c ++ w) /\
  cursor c' <= Z.max (cursor c) (inputLength c).
Proof.
  intros Hwf H. unfold handleLatex in H.
  apply bind_Ok in H as ([|] & _ & H); [|discriminate].
  apply bind_Ok in H as (b & _ & H). apply bind_Ok in H as (c1 & H1 & H).
  injection H as <-. destruct b.
  - apply handleLatexBlock_shape in H1 as (_ & Hb & closing & Ho & _); [|exact Hwf].
    split; [eauto | exact Hb].
  - destruct (handleLatexCommand_spec true c Hwf) as (c2 & H2 & _ & Hb & Ho & _).
    assert (c2 = c1) by congruence. subst c2. split; [eauto | exact Hb].
Qed.

Lemma dispatch_shape (c c' : Converter) :
  wf c -> atEof c = false -> dispatch c = Ok c' ->
  (exists w, out c' = out c ++ w) /\
  cursor c' <= inputLength c + 3 /\
  (inputLength c < cursor c' ->
   handleComments c = Ok (true, c') \/ handleCDATA c = Ok (true, c')).
Proof.
  intros Hwf He H. pose proof Hwf as [Hl Hp].
  pose proof He as Hlt. apply atEof_false in Hlt.
  apply dispatch_round in H.
  destruct H as [H1|H1 H2|H1 H2 H3|b H1 H2 H3 H4|b H1 H2 H3 H4 H5].
  - destruct (handleComments_shape c c' Hwf H1) as [Ho Hb].
    split; [exact Ho|]. split; [lia | auto].
  - pose proof (handleCDATA_bound c c' H2) as Hb.
    apply handleCDATA_true in H2 as Ht. destruct Ht as (_ & _ & Ho).
    split; [exists []; now rewrite app_nil_r|]. split; [lia | auto].
  - apply handleInlineMath_true in H3 as (_ & Hn & ->).
    unfold next in Hn. apply index_Ok in Hn as [Hn _]. simpl.
    split; [eauto|]. split; lia.
  - apply handleLatex_shape in H4 as [[w Ho] Hb]; [|exact Hwf].
    simpl in *. split; [eauto|]. split; lia.
  - apply copyCurrent_Ok in H5 as (r & _ & ->). simpl.
    split; [eauto|]. split; lia.
Qed.

(** X14: over the whole conversion loop the input is never changed and the
    output only grows: when the loop returns, the input and its recorded
    length are those it started with, the output starts with what had been
    written before, and the cursor is at or past the end of input, by three
    positions at most. *)
Theorem conversion_loop_invariants (c c' : Converter) (fuel : nat) :
  wf c -> Convert_loop fuel c = Ok c' ->
  in_ c' = in_ c /\ inputLength c' = inputLength c /\
  (exists w, out c' = out c ++ w) /\
  atEof c' = true /\
  cursor c' <= Z.max (cursor c) (inputLength c + 3).
Proof.
  intros Hwf H. unfold Convert_loop in H.
  apply (while_Ok (fun a b =>
           wf a ->
           wf b /\ sameInput a b /\ (exists w, out b = out a ++ w) /\
           cursor b <= Z.max (cursor a) (inputLength a + 3))) in H.
  - destruct H as [H He]. destruct (H Hwf) as (_ & [Hl Hi] & Ho & Hb).
    injection He as He. apply negb_false_iff in He. auto.
  - intros a Ha. split; [exact Ha|]. split; [split; reflexivity|].
    split; [exists []; now rewrite app_nil_r | lia].
  - intros x y z Hxy Hyz Hx.
    destruct (Hxy Hx) as (Hy & Hs1 & [w1 Ho1] & Hb1).
    destruct (Hyz Hy) as (Hz & Hs2 & [w2 Ho2] & Hb2).
    split; [exact Hz|]. split; [eapply sameInput_trans; eauto|].
    split; [exists (w1 ++ w2); now rewrite Ho2, Ho1, app_assoc|].
    destruct Hs1 as [Hl1 _]. lia.
  - intros a b Ha Hd Hwa. injection Ha as Ha. apply negb_true_iff in Ha.
    destruct (dispatch_shape a b Hwa Ha Hd) as (Ho & Hb & _).
    destruct (dispatch_step a b Ha Hd) as [Hs _].
    split; [now apply (dispatch_wf a b)|]. split; [exact Hs|].
    split; [exact Ho | lia].
Qed.

Lemma conversion_loop_invariants_witness :
  exists c',
    Convert_loop 9 (ByteArrayToConverter (bytes "a <!-- b")) = Ok c' /\
    in_ c' = runes "a <!-- b" /\ atEof c' = true /\ cursor c' <= 11.
Proof.
  eexists. split; [vm_compute; reflexivity|].
  destruct (conversion_loop_invariants
              (ByteArrayToConverter (bytes "a <!-- b"))
              (mkConverter 8 11 false (runes "a <!-- b") (bytes "a <!-- b-->")) 9)
    as (Hi & _ & _ & He & Hb).
  - split; [reflexivity | simpl; lia].
  - vm_compute. reflexivity.
  - split; [exact Hi|]. split; [exact He | exact Hb].
Defined.

(** X15: a round that completes leaves the cursor at most three positions
    past the end of input, and past the end of input only when it was the
    comment or the CDATA recognizer that claimed it and moved three
    positions on without having found its terminator in bounds. *)
Theorem round_cursor_bound (c c' : Converter) :
  wf c -> atEof c = false -> dispatch c = Ok c' ->
  cursor c < cursor c' <= inputLength c + 3 /\
  (inputLength c < cursor c' ->
   handleComments c = Ok (true, c') \/ handleCDATA c = Ok (true, c')).
Proof.
  intros Hwf He H.
  destruct (dispatch_shape c c' Hwf He H) as (_ & Hb & Hover).
  destruct (dispatch_step c c' He H) as [_ Hlt].
  split; [lia | exact Hover].
Qed.

Lemma round_cursor_bound_witness :
  exists c',
    dispatch (mkConverter 13 2 false (runes "a <![CDATA[ b") (bytes "a ")) = Ok c' /\
    2 < cursor c' <= 16.
Proof.
  eexists. split; [vm_compute; reflexivity|].
  apply (round_cursor_bound
           (mkConverter 13 2 false (runes "a <![CDATA[ b") (bytes "a "))
           (mkConverter 13 16 false (runes "a <![CDATA[ b") (bytes "a "))).
  - split; [reflexivity | simpl; lia].
  - reflexivity.
  - vm_compute. reflexivity.
Defined.

(** X20: outside math mode, a round that starts on a backslash whose next
    rune is neither a backslash nor [$], and whose five next runes exist and
    do not spell [begin], is the command rewriter's: it completes, and writes
    the runes it moves over as they are between [<!--] and [-->], without
    going past the end of input. *)
Theorem command_round_wraps (c : Converter) (n : rune) (l : list rune) :
  wf c -> inInlineMath c = false ->
  current c = Ok (rune_of "\") -> next c = Ok n ->
  n <> rune_of "\" -> n <> rune_of "$" ->
  lookahead 5 c = Ok l -> l <> runes "begin" ->
  exists c',
    dispatch c = Ok c' /\
    cursor c < cursor c' <= inputLength c /\
    inInlineMath c' = false /\
    out c' = out c ++ bytes "<!--"
                   ++ encode (span (in_ c) (cursor c) (cursor c'))
                   ++ bytes "-->".
Proof.
  intros Hwf Hm Hc Hn Hnb Hnd Hl Hlb.
  destruct (handleLatexCommand_spec true c Hwf)
    as (c' & H & (_ & Hm' & _) & Hb & Ho & _).
  assert (He : atEof c = false).
  { destruct Hwf as [Hw _]. unfold current in Hc.
    apply index_Ok in Hc as [Hc _]. apply atEof_false. lia. }
  pose proof (handleLatexCommand_strict true c c' He Hc H) as Hlt.
  exists c'. split; [|split; [|split; [congruence | exact Ho]]].
  - apply dispatch_round, round_latex with false;
      rewrite ?(setInInlineMath_same c false Hm).
    + apply handleComments_other with (rune_of "\"); [exact Hc | discriminate].
    + apply handleCDATA_other with (rune_of "\"); [exact Hc | discriminate].
    + unfold handleInlineMath, andR, eqRune, neRune. rewrite Hc, Hn. simpl.
      apply Z.eqb_neq in Hnd. now rewrite Hnd.
    + unfold handleLatex, andR, eqRune, neRune, eqRunes.
      rewrite Hm, Hc, Hn, Hl. simpl.
      apply Z.eqb_neq in Hnb. rewrite Hnb. simpl.
      destruct (eq l (runes "begin")) eqn:E; [apply eq_spec in E; contradiction|].
      now rewrite H.
  - apply atEof_false in He. lia.
Qed.

Lemma command_round_wraps_witness :
  exists c',
    dispatch (mkConverter 14 2 false (runes "a \alpha{x} yz") (bytes "a ")) = Ok c' /\
    cursor c' = 11 /\ out c' = bytes "a <!--\alpha{x}-->".
Proof.
  destruct (command_round_wraps
              (mkConverter 14 2 false (runes "a \alpha{x} yz") (bytes "a "))
              (rune_of "a") (runes "alpha"))
    as (c' & H & _); try reflexivity; try discriminate.
  - split; [reflexivity | simpl; lia].
  - exists c'. split; [exact H|].
    vm_compute in H. injection H as <-. split; reflexivity.
Defined.

(** ** Unterminated comments and blocks, in bounds *)

Lemma handleComments_unterminated_witness :
  exists c',
    handleComments (ByteArrayToConverter (bytes "<!-- open")) = Ok (true, c') /\
    cursor c' = 12 /\ out c' = bytes "<!-- open-->".
Proof.
  destruct (handleComments_unterminated (ByteArrayToConverter (bytes "<!-- open")))
    as (c' & H & Hc & Ho).
  - split; [reflexivity | simpl; lia].
  - reflexivity.
  - reflexivity.
  - intros p Hp Hi. change (0 <= p < 9) in Hp.
    assert (Hcase : p = 0 \/ p = 1 \/ p = 2 \/ p = 3 \/ p = 4 \/ p = 5 \/
                    p = 6 \/ p = 7 \/ p = 8) by lia.
    destruct Hcase as [-> | [-> | [-> | [-> | [-> | [-> | [-> | [-> | ->]]]]]]]];
      vm_compute in Hi; try discriminate Hi;
      eexists; (split; [vm_compute; reflexivity | discriminate]).
  - exists c'. split; [exact H|]. split; [exact Hc|]. rewrite Ho.
    vm_compute. reflexivity.
Defined.

Lemma handleLatexBlock_unterminated_witness :
  exists c',
    handleLatexBlock (ByteArrayToConverter (bytes "\begin{a} text")) = Ok c' /\
    cursor c' = 14 /\ out c' = bytes "<!--\begin{a} text".
Proof.
  destruct (handleLatexBlock_unterminated
              (ByteArrayToConverter (bytes "\begin{a} text")))
    as (c' & H & Hc & Ho).
  - split; [reflexivity | simpl; lia].
  - intros k Hk. exists 1. split; [|discriminate].
    assert (Hk' : (k < 14)%nat) by exact Hk.
    do 14 (destruct k as [|k]; [vm_compute; reflexivity|]). lia.
  - exists c'. split; [exact H|]. split; [exact Hc|]. rewrite Ho.
    vm_compute. reflexivity.
Defined.

(** X21: entered on [<![CDATA[] with no []]>] from the cursor on, where
    every []] has two runes after it, the CDATA recognizer skips the rest of
    the input: nothing more is written and the cursor ends three positions
    past the end of input, which ends the conversion. *)
Theorem cdata_unterminated_drops_rest (c : Converter) :
  wf c -> current c = Ok (rune_of "<") ->
  lookahead 8 c = Ok (runes "![CDATA[") ->
  (forall p, cursor c <= p < inputLength c ->
     index (in_ c) p = Ok (rune_of "]") ->
     exists l, slice (in_ c) (p + 1) (p + 3) = Ok l /\ l <> runes "]>") ->
  exists c',
    handleCDATA c = Ok (true, c') /\
    cursor c' = inputLength c + 3 /\ out c' = out c /\
    Convert c' = Ok (out c).
Proof.
  intros Hwf Hc Hl Hbr. pose proof Hwf as [Hw Hp].
  assert (Hlt : cursor c < inputLength c).
  { unfold current in Hc. apply index_Ok in Hc as [Hc _]. lia. }
  destruct (while_until cdataCond (fun a => Ok (advance 1 a)) (remaining c) c
              (inputLength c))
    as (c1 & Hw1 & Hc1 & [Hl1 Hi1]).
  - lia.
  - unfold remaining. lia.
  - intros a [Ha1 Ha2] Ha. split; [|exists (advance 1 a); repeat split].
    unfold cdataCond.
    assert (He : atEof a = false) by (apply atEof_false; lia).
    rewrite He. simpl.
    destruct (index_in_range (in_ c) (cursor a)) as (r & Hr); [lia|].
    unfold orR, neRune, current. rewrite Ha2, Hr. simpl.
    destruct (r =? rune_of "]") eqn:E; [|reflexivity]. simpl.
    apply Z.eqb_eq in E. subst r.
    destruct (Hbr (cursor a)) as (l & Hs & Hne); [lia | exact Hr |].
    unfold notR, eqRunes, lookahead. rewrite Ha2.
    replace (cursor a + 1 + 2) with (cursor a + 3) by lia.
    rewrite Hs. simpl.
    destruct (eq l (runes "]>")) eqn:El; [|reflexivity].
    apply eq_spec in El. contradiction.
  - intros a [Ha1 Ha2] Ha. unfold cdataCond.
    assert (He : atEof a = true)
      by (unfold atEof; rewrite Z.geb_leb; apply Z.leb_le; lia).
    now rewrite He.
  - exists (advance 3 c1).
    unfold handleCDATA. rewrite Hc, Hl. simpl. rewrite Hw1. simpl.
    apply skip_while_forward in Hw1 as [[_ Ho] _].
    split; [reflexivity|]. split; [lia|]. split; [exact Ho|].
    unfold Convert, Convert_loop.
    assert (He : atEof (advance 3 c1) = true)
      by (unfold atEof; simpl; rewrite Z.geb_leb; apply Z.leb_le; lia).
    destruct (remaining (advance 3 c1)); simpl; rewrite He; simpl;
      now rewrite Ho.
Qed.

Lemma cdata_unterminated_drops_rest_witness :
  exists c',
    handleCDATA (mkConverter 16 1 false (runes "a<![CDATA[x $ \y") (bytes "a"))
    = Ok (true, c') /\
    cursor c' = 19 /\ Convert c' = Ok (bytes "a").
Proof.
  destruct (cdata_unterminated_drops_rest
              (mkConverter 16 1 false (runes "a<![CDATA[x $ \y") (bytes "a")))
    as (c' & H & Hc & _ & Hv).
  - split; [reflexivity | simpl; lia].
  - reflexivity.
  - reflexivity.
  - intros p Hp Hi. simpl in Hp.
    assert (Hcase : p = 1 \/ p = 2 \/ p = 3 \/ p = 4 \/ p = 5 \/ p = 6 \/
                    p = 7 \/ p = 8 \/ p = 9 \/ p = 10 \/ p = 11 \/ p = 12 \/
                    p = 13 \/ p = 14 \/ p = 15) by lia.
    destruct Hcase as
      [-> | [-> | [-> | [-> | [-> | [-> | [-> | [-> | [-> | [-> | [-> | [-> |
       [-> | [-> | ->]]]]]]]]]]]]]];
      vm_compute in Hi; discriminate Hi.
  - exists c'. split; [exact H|]. split; [exact Hc | exact Hv].
Defined.

(** X22: when [handleInlineMath] declines, it has neither moved the cursor
    nor written anything: the [$] is left to the copy at the end of the
    round; and it has changed the flag only on a [$]. *)
Theorem inline_math_declines (c c' : Converter) :
  handleInlineMath c = Ok (false, c') ->
  cursor c' = cursor c /\ out c' = out c /\ in_ c' = in_ c /\
  (current c <> Ok (rune_of "$") -> c' = c).
Proof.
  intros H. destruct (handleInlineMath_false c c' H) as (b & -> & Hb).
  repeat split. intros Hd. rewrite (Hb Hd). now apply setInInlineMath_same.
Qed.

Lemma inline_math_declines_witness :
  cursor (mkConverter 5 1 true (runes " $x$ ") (bytes " ")) = 1.
Proof.
  apply (inline_math_declines
           (mkConverter 5 1 false (runes " $x$ ") (bytes " "))
           (mkConverter 5 1 true (runes " $x$ ") (bytes " "))).
  vm_compute. reflexivity.
Defined.
